(** * Row-level security of the chat schema

    A shallow embedding of the two SQL migrations of the repository and
    of the client code that talks to them:

    - [supabase/migrations/20260217194812_...sql] creates the tables
      [profiles], [conversations], [conversation_members], [messages] and
      [read_receipts], the helper [is_conversation_member], the triggers
      [handle_new_user] and [update_updated_at_column], and the first set
      of policies;
    - the follow-up migration drops and re-creates the INSERT policies of
      [conversations] and [conversation_members];
    - [sendMessage] of the message panel, the queries and the naming of
      the sidebar, and the pane logic of the chat page.

    Tables are lists of rows, a policy expression is a boolean function of
    the database, of [auth.uid()] and of the row, and the policy catalogue
    is built by running the [CREATE POLICY] / [DROP POLICY] statements of
    both migrations in order.  Permissive policies of one command are
    combined with OR, and a table with row security enabled and no policy
    for a command denies that command.

    A statement is checked against the policies of its own command (USING
    for the rows it works on, WITH CHECK for the rows it writes), and an
    UPDATE or DELETE with a WHERE clause against the SELECT policy as
    well.  The statements are plain ones, without RETURNING.  SQL NULL in
    a policy expression counts as "not satisfied"; the policies use only
    [=], AND, OR and EXISTS, so nothing is lost by that. *)

From Stdlib Require Import NArith Bool List.
From stdpp Require Import base option list strings gmap.
Import ListNotations.

Local Open Scope string_scope.
Local Open Scope N_scope.

(** ** Column types *)

Definition uuid := N.
Definition timestamptz := N.

(** [CREATE TYPE public.conversation_type AS ENUM ('dm', 'group')] *)
Inductive conversation_type := dm | group.

(** A member of a [jsonb] object as the [->>] operator sees it: JSON null,
    a JSON string, or any other value together with its text. *)
Inductive jsonb_member :=
| JNull
| JString (s : string)
| JOther (text : string).

(** A nullable [jsonb] column holding an object ([None] is SQL NULL). *)
Definition jsonb := option (gmap string jsonb_member).

(** [j ->> k]: the member as text; NULL when [j] is NULL, the key is
    missing, or the member is JSON null. *)
Definition json_get_text (j : jsonb) (k : string) : option string :=
  match j with
  | None => None
  | Some o =>
      match o !! k with
      | None | Some JNull => None
      | Some (JString s) => Some s
      | Some (JOther t) => Some t
      end
  end.

(** [COALESCE(a, b)] *)
Definition COALESCE {A} (a b : option A) : option A :=
  match a with
  | Some _ => a
  | None => b
  end.

(** ** Rows *)

(** The identity table of the platform; the columns the trigger reads. *)
Record auth_user := {
  au_id : uuid;
  au_email : option string;
  au_raw_user_meta_data : jsonb
}.

Record profile := {
  p_id : uuid;
  p_display_name : string;
  p_avatar_url : option string;
  p_created_at : timestamptz;
  p_updated_at : timestamptz
}.

Record conversation := {
  c_id : uuid;
  c_type : conversation_type;
  c_name : option string;
  c_created_at : timestamptz;
  c_updated_at : timestamptz
}.

Record conversation_member := {
  cm_id : uuid;
  cm_conversation_id : uuid;
  cm_user_id : uuid;
  cm_joined_at : timestamptz
}.

Record message := {
  m_id : uuid;
  m_conversation_id : uuid;
  m_sender_id : uuid;
  m_content : string;
  m_created_at : timestamptz
}.

Record read_receipt := {
  rr_id : uuid;
  rr_message_id : uuid;
  rr_user_id : uuid;
  rr_read_at : timestamptz
}.

Record database := {
  auth_users : list auth_user;
  profiles : list profile;
  conversations : list conversation;
  conversation_members : list conversation_member;
  messages : list message;
  read_receipts : list read_receipt
}.

Definition empty_database : database :=
  {| auth_users := []; profiles := []; conversations := [];
     conversation_members := []; messages := []; read_receipts := [] |}.

(** ** Sessions *)

Inductive role := anon | authenticated.

Definition role_eqb (a b : role) : bool :=
  match a, b with
  | anon, anon | authenticated, authenticated => true
  | _, _ => false
  end.

(** The role of the request and the value of [auth.uid()]. *)
Record session := {
  s_role : role;
  s_uid : option uuid
}.

(** The session of the signed-in user [u]. *)
Definition authed (u : uuid) : session :=
  {| s_role := authenticated; s_uid := Some u |}.

(** [col = auth.uid()] for a NOT NULL column. *)
Definition eq_uid (col : uuid) (uid : option uuid) : bool :=
  match uid with
  | Some u => N.eqb col u
  | None => false
  end.

(** ** The helper predicate

    [SELECT EXISTS (SELECT 1 FROM public.conversation_members
       WHERE conversation_id = _conversation_id AND user_id = _user_id)].
    SECURITY DEFINER: it reads the whole table, whoever calls it. *)
Definition is_conversation_member
    (db : database) (_conversation_id : uuid) (_user_id : option uuid) : bool :=
  existsb
    (fun m => N.eqb (cm_conversation_id m) _conversation_id
              && eq_uid (cm_user_id m) _user_id)
    (conversation_members db).

(** ** The policy catalogue *)

Inductive table :=
| T_profiles
| T_conversations
| T_conversation_members
| T_messages
| T_read_receipts.

Definition table_eqb (a b : table) : bool :=
  match a, b with
  | T_profiles, T_profiles
  | T_conversations, T_conversations
  | T_conversation_members, T_conversation_members
  | T_messages, T_messages
  | T_read_receipts, T_read_receipts => true
  | _, _ => false
  end.

Inductive command := SELECT | INSERT | UPDATE | DELETE.

Definition command_eqb (a b : command) : bool :=
  match a, b with
  | SELECT, SELECT | INSERT, INSERT | UPDATE, UPDATE | DELETE, DELETE => true
  | _, _ => false
  end.

(** A row of any of the five public tables. *)
Inductive row :=
| Row_profile (r : profile)
| Row_conversation (r : conversation)
| Row_conversation_member (r : conversation_member)
| Row_message (r : message)
| Row_read_receipt (r : read_receipt).

(** A USING or WITH CHECK expression: database, [auth.uid()], row. *)
Definition policy_expr := database -> option uuid -> row -> bool.

(** One row of the policy catalogue. *)
Record policy := {
  polname : string;
  polrelid : table;
  polcmd : command;
  polroles : list role;
  polqual : option policy_expr;
  polwithcheck : option policy_expr
}.

Record catalog := {
  relations : list table;
  relrowsecurity : list table;
  policies : list policy
}.

Definition empty_catalog : catalog :=
  {| relations := []; relrowsecurity := []; policies := [] |}.

Definition mem_table (t : table) (l : list table) : bool :=
  existsb (table_eqb t) l.

Definition same_policy (name : string) (t : table) (p : policy) : bool :=
  String.eqb (polname p) name && table_eqb (polrelid p) t.

(** The data-definition statements the migrations use. *)
Inductive ddl :=
| CREATE_TABLE (t : table)
| ENABLE_ROW_LEVEL_SECURITY (t : table)
| CREATE_POLICY (p : policy)
| DROP_POLICY (name : string) (t : table).

(** One statement; [None] is the error that aborts the migration (table
    or policy already there, or missing). *)
Definition run_ddl (cat : catalog) (d : ddl) : option catalog :=
  match d with
  | CREATE_TABLE t =>
      if mem_table t (relations cat) then None
      else Some {| relations := relations cat ++ [t];
                   relrowsecurity := relrowsecurity cat;
                   policies := policies cat |}
  | ENABLE_ROW_LEVEL_SECURITY t =>
      if mem_table t (relations cat)
      then Some {| relations := relations cat;
                   relrowsecurity := t :: relrowsecurity cat;
                   policies := policies cat |}
      else None
  | CREATE_POLICY p =>
      if mem_table (polrelid p) (relations cat)
         && negb (existsb (same_policy (polname p) (polrelid p)) (policies cat))
      then Some {| relations := relations cat;
                   relrowsecurity := relrowsecurity cat;
                   policies := policies cat ++ [p] |}
      else None
  | DROP_POLICY name t =>
      if existsb (same_policy name t) (policies cat)
      then Some {| relations := relations cat;
                   relrowsecurity := relrowsecurity cat;
                   policies :=
                     List.filter (fun p => negb (same_policy name t p))
                                 (policies cat) |}
      else None
  end.

Fixpoint run_migration (cat : catalog) (ds : list ddl) : option catalog :=
  match ds with
  | [] => Some cat
  | d :: ds' =>
      match run_ddl cat d with
      | Some cat' => run_migration cat' ds'
      | None => None
      end
  end.

(** ** Policy expressions *)

Definition on_profile (f : profile -> bool) (r : row) : bool :=
  match r with Row_profile x => f x | _ => false end.

Definition on_conversation (f : conversation -> bool) (r : row) : bool :=
  match r with Row_conversation x => f x | _ => false end.

Definition on_conversation_member (f : conversation_member -> bool) (r : row) : bool :=
  match r with Row_conversation_member x => f x | _ => false end.

Definition on_message (f : message -> bool) (r : row) : bool :=
  match r with Row_message x => f x | _ => false end.

Definition on_read_receipt (f : read_receipt -> bool) (r : row) : bool :=
  match r with Row_read_receipt x => f x | _ => false end.

(** [EXISTS (SELECT 1 FROM public.messages m WHERE m.id = message_id
      AND public.is_conversation_member(m.conversation_id, auth.uid()))].
    The sub-select is itself filtered by the SELECT policy of [messages],
    which is the second conjunct again. *)
Definition receipt_message_visible
    (db : database) (uid : option uuid) (x : read_receipt) : bool :=
  existsb
    (fun m => N.eqb (m_id m) (rr_message_id x)
              && is_conversation_member db (m_conversation_id m) uid)
    (messages db).

(** *** First migration *)

Definition Users_can_view_all_profiles : policy :=
  {| polname := "Users can view all profiles";
     polrelid := T_profiles; polcmd := SELECT; polroles := [authenticated];
     polqual := Some (fun _ _ => on_profile (fun _ => true));
     polwithcheck := None |}.

Definition Users_can_insert_own_profile : policy :=
  {| polname := "Users can insert own profile";
     polrelid := T_profiles; polcmd := INSERT; polroles := [authenticated];
     polqual := None;
     polwithcheck := Some (fun _ uid => on_profile (fun x => eq_uid (p_id x) uid)) |}.

Definition Users_can_update_own_profile : policy :=
  {| polname := "Users can update own profile";
     polrelid := T_profiles; polcmd := UPDATE; polroles := [authenticated];
     polqual := Some (fun _ uid => on_profile (fun x => eq_uid (p_id x) uid));
     polwithcheck := None |}.

Definition Members_can_view_conversations : policy :=
  {| polname := "Members can view conversations";
     polrelid := T_conversations; polcmd := SELECT; polroles := [authenticated];
     polqual := Some (fun db uid =>
       on_conversation (fun x => is_conversation_member db (c_id x) uid));
     polwithcheck := None |}.

Definition Authenticated_users_can_create_conversations : policy :=
  {| polname := "Authenticated users can create conversations";
     polrelid := T_conversations; polcmd := INSERT; polroles := [authenticated];
     polqual := None;
     polwithcheck := Some (fun _ _ => on_conversation (fun _ => true)) |}.

Definition Members_can_update_conversations : policy :=
  {| polname := "Members can update conversations";
     polrelid := T_conversations; polcmd := UPDATE; polroles := [authenticated];
     polqual := Some (fun db uid =>
       on_conversation (fun x => is_conversation_member db (c_id x) uid));
     polwithcheck := None |}.

Definition Members_can_view_conversation_members : policy :=
  {| polname := "Members can view conversation members";
     polrelid := T_conversation_members; polcmd := SELECT;
     polroles := [authenticated];
     polqual := Some (fun db uid =>
       on_conversation_member
         (fun x => is_conversation_member db (cm_conversation_id x) uid));
     polwithcheck := None |}.

Definition Authenticated_users_can_add_members : policy :=
  {| polname := "Authenticated users can add members";
     polrelid := T_conversation_members; polcmd := INSERT;
     polroles := [authenticated];
     polqual := None;
     polwithcheck := Some (fun _ _ => on_conversation_member (fun _ => true)) |}.

Definition Users_can_leave_conversations : policy :=
  {| polname := "Users can leave conversations";
     polrelid := T_conversation_members; polcmd := DELETE;
     polroles := [authenticated];
     polqual := Some (fun _ uid =>
       on_conversation_member (fun x => eq_uid (cm_user_id x) uid));
     polwithcheck := None |}.

Definition Members_can_view_messages : policy :=
  {| polname := "Members can view messages";
     polrelid := T_messages; polcmd := SELECT; polroles := [authenticated];
     polqual := Some (fun db uid =>
       on_message (fun x => is_conversation_member db (m_conversation_id x) uid));
     polwithcheck := None |}.

Definition Members_can_send_messages : policy :=
  {| polname := "Members can send messages";
     polrelid := T_messages; polcmd := INSERT; polroles := [authenticated];
     polqual := None;
     polwithcheck := Some (fun db uid =>
       on_message (fun x =>
         eq_uid (m_sender_id x) uid
         && is_conversation_member db (m_conversation_id x) uid)) |}.

Definition Senders_can_update_messages : policy :=
  {| polname := "Senders can update messages";
     polrelid := T_messages; polcmd := UPDATE; polroles := [authenticated];
     polqual := Some (fun _ uid => on_message (fun x => eq_uid (m_sender_id x) uid));
     polwithcheck := None |}.

Definition Senders_can_delete_messages : policy :=
  {| polname := "Senders can delete messages";
     polrelid := T_messages; polcmd := DELETE; polroles := [authenticated];
     polqual := Some (fun _ uid => on_message (fun x => eq_uid (m_sender_id x) uid));
     polwithcheck := None |}.

Definition Users_can_view_read_receipts_in_their_conversations : policy :=
  {| polname := "Users can view read receipts in their conversations";
     polrelid := T_read_receipts; polcmd := SELECT; polroles := [authenticated];
     polqual := Some (fun db uid =>
       on_read_receipt (fun x => receipt_message_visible db uid x));
     polwithcheck := None |}.

Definition Users_can_mark_messages_as_read : policy :=
  {| polname := "Users can mark messages as read";
     polrelid := T_read_receipts; polcmd := INSERT; polroles := [authenticated];
     polqual := None;
     polwithcheck := Some (fun db uid =>
       on_read_receipt (fun x =>
         eq_uid (rr_user_id x) uid && receipt_message_visible db uid x)) |}.

(** The statements of the first migration that touch the catalogue, in
    file order. *)
Definition migration_20260217194812 : list ddl :=
  [ CREATE_TABLE T_profiles;
    ENABLE_ROW_LEVEL_SECURITY T_profiles;
    CREATE_POLICY Users_can_view_all_profiles;
    CREATE_POLICY Users_can_insert_own_profile;
    CREATE_POLICY Users_can_update_own_profile;
    CREATE_TABLE T_conversations;
    ENABLE_ROW_LEVEL_SECURITY T_conversations;
    CREATE_TABLE T_conversation_members;
    ENABLE_ROW_LEVEL_SECURITY T_conversation_members;
    CREATE_POLICY Members_can_view_conversations;
    CREATE_POLICY Authenticated_users_can_create_conversations;
    CREATE_POLICY Members_can_update_conversations;
    CREATE_POLICY Members_can_view_conversation_members;
    CREATE_POLICY Authenticated_users_can_add_members;
    CREATE_POLICY Users_can_leave_conversations;
    CREATE_TABLE T_messages;
    ENABLE_ROW_LEVEL_SECURITY T_messages;
    CREATE_POLICY Members_can_view_messages;
    CREATE_POLICY Members_can_send_messages;
    CREATE_POLICY Senders_can_update_messages;
    CREATE_POLICY Senders_can_delete_messages;
    CREATE_TABLE T_read_receipts;
    ENABLE_ROW_LEVEL_SECURITY T_read_receipts;
    CREATE_POLICY Users_can_view_read_receipts_in_their_conversations;
    CREATE_POLICY Users_can_mark_messages_as_read ].

(** *** Second migration *)

Definition Users_can_join_or_add_members_to_their_conversations : policy :=
  {| polname := "Users can join or add members to their conversations";
     polrelid := T_conversation_members; polcmd := INSERT;
     polroles := [authenticated];
     polqual := None;
     polwithcheck := Some (fun db uid =>
       on_conversation_member (fun x =>
         eq_uid (cm_user_id x) uid
         || is_conversation_member db (cm_conversation_id x) uid)) |}.

Definition migration_tighten : list ddl :=
  [ DROP_POLICY "Authenticated users can create conversations" T_conversations;
    CREATE_POLICY Authenticated_users_can_create_conversations;
    DROP_POLICY "Authenticated users can add members" T_conversation_members;
    CREATE_POLICY Users_can_join_or_add_members_to_their_conversations ].

(** Both migrations, oldest first. *)
Definition migrate : option catalog :=
  match run_migration empty_catalog migration_20260217194812 with
  | Some cat => run_migration cat migration_tighten
  | None => None
  end.

(** The catalogue the application runs against. *)
Definition schema : catalog :=
  match migrate with
  | Some cat => cat
  | None => empty_catalog
  end.

(** ** Evaluating row security *)

Definition table_of (r : row) : table :=
  match r with
  | Row_profile _ => T_profiles
  | Row_conversation _ => T_conversations
  | Row_conversation_member _ => T_conversation_members
  | Row_message _ => T_messages
  | Row_read_receipt _ => T_read_receipts
  end.

(** The policy is for this table, this command and this role. *)
Definition applies (t : table) (cmd : command) (s : session) (p : policy) : bool :=
  table_eqb (polrelid p) t
  && command_eqb (polcmd p) cmd
  && existsb (role_eqb (s_role s)) (polroles p).

(** USING; a policy without one puts no condition on existing rows. *)
Definition using_expr (p : policy) : policy_expr :=
  match polqual p with
  | Some e => e
  | None => fun _ _ _ => true
  end.

(** WITH CHECK; a policy without one checks new rows with its USING. *)
Definition check_expr (p : policy) : policy_expr :=
  match polwithcheck p with
  | Some e => e
  | None => using_expr p
  end.

(** An existing row passes the USING expressions of [cmd]: some
    applicable policy admits it (every policy here is permissive). *)
Definition using_allows
    (cat : catalog) (cmd : command) (s : session) (db : database) (r : row) : bool :=
  if mem_table (table_of r) (relrowsecurity cat)
  then existsb
         (fun p => applies (table_of r) cmd s p && using_expr p db (s_uid s) r)
         (policies cat)
  else true.

(** A new row passes the WITH CHECK expressions of [cmd]. *)
Definition check_allows
    (cat : catalog) (cmd : command) (s : session) (db : database) (r : row) : bool :=
  if mem_table (table_of r) (relrowsecurity cat)
  then existsb
         (fun p => applies (table_of r) cmd s p && check_expr p db (s_uid s) r)
         (policies cat)
  else true.

(** No policy of the catalogue is for command [cmd] on table [t]. *)
Definition no_policy_for (cat : catalog) (t : table) (cmd : command) : bool :=
  forallb
    (fun p => negb (table_eqb (polrelid p) t && command_eqb (polcmd p) cmd))
    (policies cat).

(** The catalogue after the first migration alone. *)
Definition schema_v1 : catalog :=
  match run_migration empty_catalog migration_20260217194812 with
  | Some cat => cat
  | None => empty_catalog
  end.

(** ** Statements *)

(** The errors a statement can end in. *)
Inductive sqlerror :=
| insufficient_privilege                        (* new row violates row-level security *)
| not_null_violation (column : string)
| unique_violation (constraint : string)
| foreign_key_violation (constraint : string).

Inductive result (A : Type) :=
| OK (a : A)
| ERROR (e : sqlerror).
Arguments OK {A} a.
Arguments ERROR {A} e.

(** A data-changing statement: the new database, or the error. *)
Definition statement := database -> result database.

(** Run a statement; one that fails leaves the database as it was. *)
Definition exec (q : statement) (db : database) : database * option sqlerror :=
  match q db with
  | OK db' => (db', None)
  | ERROR e => (db, Some e)
  end.

Definition is_unique_violation (e : sqlerror) : bool :=
  match e with
  | unique_violation _ => true
  | _ => false
  end.

Definition with_auth_users (db : database) (l : list auth_user) : database :=
  {| auth_users := l; profiles := profiles db;
     conversations := conversations db;
     conversation_members := conversation_members db;
     messages := messages db; read_receipts := read_receipts db |}.

Definition with_profiles (db : database) (l : list profile) : database :=
  {| auth_users := auth_users db; profiles := l;
     conversations := conversations db;
     conversation_members := conversation_members db;
     messages := messages db; read_receipts := read_receipts db |}.

Definition with_conversations (db : database) (l : list conversation) : database :=
  {| auth_users := auth_users db; profiles := profiles db;
     conversations := l;
     conversation_members := conversation_members db;
     messages := messages db; read_receipts := read_receipts db |}.

Definition with_conversation_members
    (db : database) (l : list conversation_member) : database :=
  {| auth_users := auth_users db; profiles := profiles db;
     conversations := conversations db;
     conversation_members := l;
     messages := messages db; read_receipts := read_receipts db |}.

Definition with_messages (db : database) (l : list message) : database :=
  {| auth_users := auth_users db; profiles := profiles db;
     conversations := conversations db;
     conversation_members := conversation_members db;
     messages := l; read_receipts := read_receipts db |}.

Definition with_read_receipts (db : database) (l : list read_receipt) : database :=
  {| auth_users := auth_users db; profiles := profiles db;
     conversations := conversations db;
     conversation_members := conversation_members db;
     messages := messages db; read_receipts := l |}.

(** Key lookups used by the constraints. *)
Definition user_exists (db : database) (u : uuid) : bool :=
  existsb (fun x => N.eqb (au_id x) u) (auth_users db).

Definition profile_exists (db : database) (u : uuid) : bool :=
  existsb (fun x => N.eqb (p_id x) u) (profiles db).

Definition conversation_exists (db : database) (c : uuid) : bool :=
  existsb (fun x => N.eqb (c_id x) c) (conversations db).

Definition message_exists (db : database) (m : uuid) : bool :=
  existsb (fun x => N.eqb (m_id x) m) (messages db).

(** *** SELECT: the rows the USING expression lets through *)

Definition select_profiles (s : session) (db : database) : list profile :=
  List.filter (fun x => using_allows schema SELECT s db (Row_profile x))
              (profiles db).

Definition select_conversations (s : session) (db : database) : list conversation :=
  List.filter (fun x => using_allows schema SELECT s db (Row_conversation x))
              (conversations db).

Definition select_conversation_members
    (s : session) (db : database) : list conversation_member :=
  List.filter (fun x => using_allows schema SELECT s db (Row_conversation_member x))
              (conversation_members db).

Definition select_messages (s : session) (db : database) : list message :=
  List.filter (fun x => using_allows schema SELECT s db (Row_message x))
              (messages db).

Definition select_read_receipts (s : session) (db : database) : list read_receipt :=
  List.filter (fun x => using_allows schema SELECT s db (Row_read_receipt x))
              (read_receipts db).

(** *** INSERT: WITH CHECK first, then keys, then references *)

(** [profiles]: PRIMARY KEY (id), which references [auth.users]. *)
Definition insert_profile (s : session) (x : profile) : statement := fun db =>
  if negb (check_allows schema INSERT s db (Row_profile x))
  then ERROR insufficient_privilege
  else if profile_exists db (p_id x)
  then ERROR (unique_violation "profiles_pkey")
  else if negb (user_exists db (p_id x))
  then ERROR (foreign_key_violation "profiles_id_fkey")
  else OK (with_profiles db (profiles db ++ [x])).

(** [conversations]: PRIMARY KEY (id). *)
Definition insert_conversation (s : session) (x : conversation) : statement := fun db =>
  if negb (check_allows schema INSERT s db (Row_conversation x))
  then ERROR insufficient_privilege
  else if conversation_exists db (c_id x)
  then ERROR (unique_violation "conversations_pkey")
  else OK (with_conversations db (conversations db ++ [x])).

(** The keys of [conversation_members], checked as the row is stored:
    PRIMARY KEY (id) and UNIQUE (conversation_id, user_id). *)
Definition store_conversation_member (x : conversation_member) : statement := fun db =>
  if existsb (fun y => N.eqb (cm_id y) (cm_id x)) (conversation_members db)
  then ERROR (unique_violation "conversation_members_pkey")
  else if existsb
            (fun y => N.eqb (cm_conversation_id y) (cm_conversation_id x)
                      && N.eqb (cm_user_id y) (cm_user_id x))
            (conversation_members db)
  then ERROR (unique_violation "conversation_members_conversation_id_user_id_key")
  else OK (with_conversation_members db (conversation_members db ++ [x])).

(** The rows of one INSERT, in order: WITH CHECK, then the keys.
    [snapshot] is the database the statement started from:
    [is_conversation_member] is STABLE, so the WITH CHECK of a row does
    not see the rows the same statement has stored before it; the keys
    do. *)
Fixpoint store_checked_members
    (s : session) (snapshot : database) (xs : list conversation_member)
    : statement := fun db =>
  match xs with
  | [] => OK db
  | x :: rest =>
      if negb (check_allows schema INSERT s snapshot (Row_conversation_member x))
      then ERROR insufficient_privilege
      else match store_conversation_member x db with
           | OK db' => store_checked_members s snapshot rest db'
           | ERROR e => ERROR e
           end
  end.

(** The references of [conversation_members], checked when all rows of
    the statement are stored: [conversation_id] and [user_id] of each
    row, in row order.  [None]: they all hold. *)
Fixpoint member_references_broken
    (xs : list conversation_member) (db : database) : option sqlerror :=
  match xs with
  | [] => None
  | x :: rest =>
      if negb (conversation_exists db (cm_conversation_id x))
      then Some (foreign_key_violation "conversation_members_conversation_id_fkey")
      else if negb (user_exists db (cm_user_id x))
      then Some (foreign_key_violation "conversation_members_user_id_fkey")
      else member_references_broken rest db
  end.

(** [INSERT INTO conversation_members] with any number of rows. *)
Definition insert_conversation_members
    (s : session) (xs : list conversation_member) : statement := fun db =>
  match store_checked_members s db xs db with
  | OK db' =>
      match member_references_broken xs db' with
      | Some e => ERROR e
      | None => OK db'
      end
  | ERROR e => ERROR e
  end.

(** The same with one row. *)
Definition insert_conversation_member
    (s : session) (x : conversation_member) : statement :=
  insert_conversation_members s [x].

(** [messages]: PRIMARY KEY (id), both columns reference rows. *)
Definition insert_message (s : session) (x : message) : statement := fun db =>
  if negb (check_allows schema INSERT s db (Row_message x))
  then ERROR insufficient_privilege
  else if message_exists db (m_id x)
  then ERROR (unique_violation "messages_pkey")
  else if negb (conversation_exists db (m_conversation_id x))
  then ERROR (foreign_key_violation "messages_conversation_id_fkey")
  else if negb (user_exists db (m_sender_id x))
  then ERROR (foreign_key_violation "messages_sender_id_fkey")
  else OK (with_messages db (messages db ++ [x])).

(** [read_receipts]: PRIMARY KEY (id), UNIQUE (message_id, user_id),
    both columns reference rows. *)
Definition insert_read_receipt (s : session) (x : read_receipt) : statement := fun db =>
  if negb (check_allows schema INSERT s db (Row_read_receipt x))
  then ERROR insufficient_privilege
  else if existsb (fun y => N.eqb (rr_id y) (rr_id x)) (read_receipts db)
  then ERROR (unique_violation "read_receipts_pkey")
  else if existsb
            (fun y => N.eqb (rr_message_id y) (rr_message_id x)
                      && N.eqb (rr_user_id y) (rr_user_id x))
            (read_receipts db)
  then ERROR (unique_violation "read_receipts_message_id_user_id_key")
  else if negb (message_exists db (rr_message_id x))
  then ERROR (foreign_key_violation "read_receipts_message_id_fkey")
  else if negb (user_exists db (rr_user_id x))
  then ERROR (foreign_key_violation "read_receipts_user_id_fkey")
  else OK (with_read_receipts db (read_receipts db ++ [x])).

(** *** UPDATE *)

(** [update_updated_at_column()] as the trigger
    [update_conversations_updated_at BEFORE UPDATE ON public.conversations]
    runs it: [NEW.updated_at = now(); RETURN NEW]. *)
Definition update_conversations_updated_at
    (now : timestamptz) (NEW : conversation) : conversation :=
  {| c_id := c_id NEW; c_type := c_type NEW; c_name := c_name NEW;
     c_created_at := c_created_at NEW; c_updated_at := now |}.

(** The same function under [update_profiles_updated_at]. *)
Definition update_profiles_updated_at
    (now : timestamptz) (NEW : profile) : profile :=
  {| p_id := p_id NEW; p_display_name := p_display_name NEW;
     p_avatar_url := p_avatar_url NEW;
     p_created_at := p_created_at NEW; p_updated_at := now |}.

(** One assignment of a SET clause: [None] leaves the column alone,
    [Some None] is [SET col = NULL], [Some (Some v)] is [SET col = v]. *)
Definition assignment (A : Type) := option (option A).

(** The value of a nullable column after the assignment. *)
Definition assign_nullable {A} (old : option A) (v : assignment A) : option A :=
  match v with
  | None => old
  | Some new => new
  end.

(** The value of a NOT NULL column after the assignment.  A NULL put
    there is reported by [assigns_null]; the row keeps the old value for
    the policies, which look at it first and never at such a column. *)
Definition assign {A} (old : A) (v : assignment A) : A :=
  match v with
  | Some (Some new) => new
  | _ => old
  end.

Definition assigns_null {A} (v : assignment A) : bool :=
  match v with
  | Some None => true
  | _ => false
  end.

(** The statement reads the table when it has a WHERE clause; it then
    also needs the SELECT policy for the rows it works on. *)
Definition matches {A} (where_ : option (A -> bool)) (x : A) : bool :=
  match where_ with
  | Some f => f x
  | None => true
  end.

Definition readable {A} (where_ : option (A -> bool))
    (s : session) (db : database) (r : row) : bool :=
  match where_ with
  | Some _ => using_allows schema SELECT s db r
  | None => true
  end.

(** A SET clause over the columns of [conversations] other than the
    key. *)
Record conversation_set := {
  set_type : assignment conversation_type;
  set_name : assignment string;
  set_created_at : assignment timestamptz;
  set_updated_at : assignment timestamptz
}.

Definition apply_conversation_set
    (a : conversation_set) (x : conversation) : conversation :=
  {| c_id := c_id x;
     c_type := assign (c_type x) (set_type a);
     c_name := assign_nullable (c_name x) (set_name a);
     c_created_at := assign (c_created_at x) (set_created_at a);
     c_updated_at := assign (c_updated_at x) (set_updated_at a) |}.

(** The NOT NULL column of [conversations] the new row leaves NULL,
    first in column order.  [updated_at] is not among them: the trigger
    has filled it before the constraint is looked at. *)
Definition conversation_set_null (a : conversation_set) : option string :=
  if assigns_null (set_type a) then Some "type"
  else if assigns_null (set_created_at a) then Some "created_at"
  else None.

(** Rewrite the rows [touch] selects.  A new row that [ok] refuses is
    the row-security error of the whole statement; one that passes and
    leaves the NOT NULL column [null_column] empty is the not-null
    error. *)
Fixpoint update_rows {A} (touch : A -> bool) (new : A -> A) (ok : A -> bool)
    (null_column : option string) (l : list A) : result (list A) :=
  match l with
  | [] => OK []
  | x :: l' =>
      if touch x then
        if ok (new x) then
          match null_column with
          | Some column => ERROR (not_null_violation column)
          | None =>
              match update_rows touch new ok null_column l' with
              | OK r => OK (new x :: r)
              | ERROR e => ERROR e
              end
          end
        else ERROR insufficient_privilege
      else
        match update_rows touch new ok null_column l' with
        | OK r => OK (x :: r)
        | ERROR e => ERROR e
        end
  end.

(** [UPDATE conversations SET ... WHERE ...]: the rows that match and
    pass USING are rewritten, the BEFORE UPDATE trigger sets
    [updated_at], the row that results must pass WITH CHECK and then the
    NOT NULL constraints.  The SELECT policy of this table is the USING
    expression of UPDATE again, so the WHERE clause asks nothing more. *)
Definition update_conversations
    (s : session) (now : timestamptz) (a : conversation_set)
    (where_ : conversation -> bool) : statement := fun db =>
  match update_rows
          (fun x => where_ x && using_allows schema UPDATE s db (Row_conversation x))
          (fun x => update_conversations_updated_at now (apply_conversation_set a x))
          (fun y => check_allows schema UPDATE s db (Row_conversation y))
          (conversation_set_null a)
          (conversations db) with
  | OK l => OK (with_conversations db l)
  | ERROR e => ERROR e
  end.

(** A SET clause over the columns of [profiles] other than the key. *)
Record profile_set := {
  set_display_name : assignment string;
  set_avatar_url : assignment string;
  set_p_created_at : assignment timestamptz;
  set_p_updated_at : assignment timestamptz
}.

Definition apply_profile_set (a : profile_set) (x : profile) : profile :=
  {| p_id := p_id x;
     p_display_name := assign (p_display_name x) (set_display_name a);
     p_avatar_url := assign_nullable (p_avatar_url x) (set_avatar_url a);
     p_created_at := assign (p_created_at x) (set_p_created_at a);
     p_updated_at := assign (p_updated_at x) (set_p_updated_at a) |}.

(** The NOT NULL column of [profiles] the new row leaves NULL. *)
Definition profile_set_null (a : profile_set) : option string :=
  if assigns_null (set_display_name a) then Some "display_name"
  else if assigns_null (set_p_created_at a) then Some "created_at"
  else None.

(** [UPDATE profiles SET ... WHERE ...], with its BEFORE UPDATE trigger.
    The SELECT policy of this table lets every row through. *)
Definition update_profiles
    (s : session) (now : timestamptz) (a : profile_set)
    (where_ : profile -> bool) : statement := fun db =>
  match update_rows
          (fun x => where_ x && using_allows schema UPDATE s db (Row_profile x))
          (fun x => update_profiles_updated_at now (apply_profile_set a x))
          (fun y => check_allows schema UPDATE s db (Row_profile y))
          (profile_set_null a)
          (profiles db) with
  | OK l => OK (with_profiles db l)
  | ERROR e => ERROR e
  end.

(** A SET clause over the columns of [messages] that are neither the key
    nor a reference. *)
Record message_set := {
  set_content : assignment string;
  set_m_created_at : assignment timestamptz
}.

Definition apply_message_set (a : message_set) (x : message) : message :=
  {| m_id := m_id x;
     m_conversation_id := m_conversation_id x;
     m_sender_id := m_sender_id x;
     m_content := assign (m_content x) (set_content a);
     m_created_at := assign (m_created_at x) (set_m_created_at a) |}.

(** The NOT NULL column of [messages] the new row leaves NULL. *)
Definition message_set_null (a : message_set) : option string :=
  if assigns_null (set_content a) then Some "content"
  else if assigns_null (set_m_created_at a) then Some "created_at"
  else None.

(** [UPDATE messages SET ... [WHERE ...]]; no trigger on this table.
    With a WHERE clause the old and the new row must pass the SELECT
    policy as well as the UPDATE policy. *)
Definition update_messages
    (s : session) (a : message_set) (where_ : option (message -> bool))
    : statement := fun db =>
  match update_rows
          (fun x => matches where_ x
                    && (using_allows schema UPDATE s db (Row_message x)
                        && readable where_ s db (Row_message x)))
          (apply_message_set a)
          (fun y => check_allows schema UPDATE s db (Row_message y)
                    && readable where_ s db (Row_message y))
          (message_set_null a)
          (messages db) with
  | OK l => OK (with_messages db l)
  | ERROR e => ERROR e
  end.

(** *** DELETE *)

(** [DELETE FROM conversation_members WHERE ...]: the rows that match and
    that the USING expression of DELETE lets through are removed; the
    others stay, without an error.  A stored row of the session's user
    passes the SELECT policy by its own existence, so the WHERE clause
    asks nothing more.  No table references this one. *)
Definition delete_conversation_members
    (s : session) (where_ : conversation_member -> bool) : statement := fun db =>
  OK (with_conversation_members db
        (List.filter
           (fun x => negb (where_ x
                           && using_allows schema DELETE s db (Row_conversation_member x)))
           (conversation_members db))).

(** [DELETE FROM messages [WHERE ...]]: the rows that match and pass the
    DELETE policy go, and with a WHERE clause they must pass the SELECT
    policy too.  [read_receipts.message_id] is ON DELETE CASCADE, so the
    receipts of a removed message go with it. *)
Definition delete_messages
    (s : session) (where_ : option (message -> bool)) : statement := fun db =>
  let doomed x :=
    matches where_ x
    && (using_allows schema DELETE s db (Row_message x)
        && readable where_ s db (Row_message x)) in
  OK {| auth_users := auth_users db; profiles := profiles db;
        conversations := conversations db;
        conversation_members := conversation_members db;
        messages := List.filter (fun x => negb (doomed x)) (messages db);
        read_receipts :=
          List.filter
            (fun r => negb (existsb
                              (fun x => doomed x && N.eqb (m_id x) (rr_message_id r))
                              (messages db)))
            (read_receipts db) |}.

(** [DELETE FROM auth.users WHERE id = u] by the auth subsystem.  Every
    reference to [auth.users(id)] is ON DELETE CASCADE: the profile, the
    memberships, the messages sent (and their receipts) and the receipts
    given all go. *)
Definition delete_auth_user (u : uuid) : statement := fun db =>
  OK {| auth_users := List.filter (fun x => negb (N.eqb (au_id x) u)) (auth_users db);
        profiles := List.filter (fun x => negb (N.eqb (p_id x) u)) (profiles db);
        conversations := conversations db;
        conversation_members :=
          List.filter (fun x => negb (N.eqb (cm_user_id x) u)) (conversation_members db);
        messages := List.filter (fun x => negb (N.eqb (m_sender_id x) u)) (messages db);
        read_receipts :=
          List.filter
            (fun r => negb (N.eqb (rr_user_id r) u)
                      && negb (existsb
                                 (fun x => N.eqb (m_sender_id x) u
                                           && N.eqb (m_id x) (rr_message_id r))
                                 (messages db)))
            (read_receipts db) |}.

(** *** The signup trigger *)

(** The value [handle_new_user] gives [display_name]:
    [COALESCE(NEW.raw_user_meta_data->>'display_name', NEW.email)]. *)
Definition new_user_display_name (NEW : auth_user) : option string :=
  COALESCE (json_get_text (au_raw_user_meta_data NEW) "display_name") (au_email NEW).

(** [INSERT INTO public.profiles (id, display_name) VALUES (...)] run by
    the definer, whom row security does not bind: NOT NULL on
    [display_name], the primary key, the reference to [auth.users];
    [avatar_url] takes NULL and both timestamps [now()]. *)
Definition handle_new_user (now : timestamptz) (NEW : auth_user) : statement := fun db =>
  match new_user_display_name NEW with
  | None => ERROR (not_null_violation "display_name")
  | Some name =>
      if profile_exists db (au_id NEW)
      then ERROR (unique_violation "profiles_pkey")
      else if negb (user_exists db (au_id NEW))
      then ERROR (foreign_key_violation "profiles_id_fkey")
      else OK (with_profiles db
                 (profiles db ++
                  [{| p_id := au_id NEW; p_display_name := name;
                      p_avatar_url := None;
                      p_created_at := now; p_updated_at := now |}]))
  end.

(** [INSERT INTO auth.users] by the auth subsystem, with the trigger
    [on_auth_user_created AFTER INSERT ... FOR EACH ROW]: the row is
    stored, then the trigger function runs on it; its error is the error
    of the whole statement. *)
Definition insert_auth_user (now : timestamptz) (NEW : auth_user) : statement := fun db =>
  if user_exists db (au_id NEW)
  then ERROR (unique_violation "users_pkey")
  else handle_new_user now NEW (with_auth_users db (auth_users db ++ [NEW])).

(** ** Integrity of a stored database *)

(** The conversation has no membership row. *)
Definition orphan (db : database) (c : uuid) : Prop :=
  forall m, In m (conversation_members db) -> cm_conversation_id m <> c.

(** The membership row (conversation [c], user [u]) is stored. *)
Definition membership (db : database) (c u : uuid) : Prop :=
  exists m, In m (conversation_members db)
            /\ cm_conversation_id m = c /\ cm_user_id m = u.

(** The declared keys and references of the six tables. *)
Record consistent (db : database) : Prop := {
  users_pkey : List.NoDup (map au_id (auth_users db));
  profiles_pkey : List.NoDup (map p_id (profiles db));
  conversations_pkey : List.NoDup (map c_id (conversations db));
  conversation_members_pkey : List.NoDup (map cm_id (conversation_members db));
  conversation_members_key :
    List.NoDup (map (fun x => (cm_conversation_id x, cm_user_id x))
               (conversation_members db));
  messages_pkey : List.NoDup (map m_id (messages db));
  read_receipts_pkey : List.NoDup (map rr_id (read_receipts db));
  read_receipts_key :
    List.NoDup (map (fun x => (rr_message_id x, rr_user_id x)) (read_receipts db));
  profiles_id_fkey :
    forall x, In x (profiles db) -> user_exists db (p_id x) = true;
  conversation_members_conversation_id_fkey :
    forall x, In x (conversation_members db) ->
              conversation_exists db (cm_conversation_id x) = true;
  conversation_members_user_id_fkey :
    forall x, In x (conversation_members db) -> user_exists db (cm_user_id x) = true;
  messages_conversation_id_fkey :
    forall x, In x (messages db) ->
              conversation_exists db (m_conversation_id x) = true;
  messages_sender_id_fkey :
    forall x, In x (messages db) -> user_exists db (m_sender_id x) = true;
  read_receipts_message_id_fkey :
    forall x, In x (read_receipts db) -> message_exists db (rr_message_id x) = true;
  read_receipts_user_id_fkey :
    forall x, In x (read_receipts db) -> user_exists db (rr_user_id x) = true
}.

(** Every identity has its profile row. *)
Definition every_user_has_profile (db : database) : Prop :=
  forall x, In x (auth_users db) -> profile_exists db (au_id x) = true.

(** What can happen to the database: the auth subsystem creates and
    removes identities, sessions run the statements above. *)
Inductive action :=
| Signup (now : timestamptz) (NEW : auth_user)
| Remove_user (u : uuid)
| Insert_profile (s : session) (x : profile)
| Update_profiles (s : session) (now : timestamptz) (a : profile_set)
                  (where_ : profile -> bool)
| Insert_conversation (s : session) (x : conversation)
| Update_conversations (s : session) (now : timestamptz) (a : conversation_set)
                       (where_ : conversation -> bool)
| Insert_conversation_members (s : session) (xs : list conversation_member)
| Delete_conversation_members (s : session) (where_ : conversation_member -> bool)
| Insert_message (s : session) (x : message)
| Update_messages (s : session) (a : message_set) (where_ : option (message -> bool))
| Delete_messages (s : session) (where_ : option (message -> bool))
| Insert_read_receipt (s : session) (x : read_receipt).

Definition run (a : action) : statement :=
  match a with
  | Signup now NEW => insert_auth_user now NEW
  | Remove_user u => delete_auth_user u
  | Insert_profile s x => insert_profile s x
  | Update_profiles s now a where_ => update_profiles s now a where_
  | Insert_conversation s x => insert_conversation s x
  | Update_conversations s now a where_ => update_conversations s now a where_
  | Insert_conversation_members s xs => insert_conversation_members s xs
  | Delete_conversation_members s where_ => delete_conversation_members s where_
  | Insert_message s x => insert_message s x
  | Update_messages s a where_ => update_messages s a where_
  | Delete_messages s where_ => delete_messages s where_
  | Insert_read_receipt s x => insert_read_receipt s x
  end.

(** The database after a sequence of actions. *)
Fixpoint run_all (l : list action) (db : database) : database :=
  match l with
  | [] => db
  | a :: l' => run_all l' (fst (exec (run a) db))
  end.

(** ** The client *)

(** [a || d] on a nullable string: [d] when [a] is null or empty. *)
Definition js_or (a : option string) (d : string) : string :=
  match a with
  | Some s => if String.eqb s "" then d else s
  | None => d
  end.

Record member_detail := {
  md_user_id : uuid;
  md_display_name : string
}.

Record last_message_detail := {
  lm_content : string;
  lm_created_at : timestamptz
}.

(** [interface ConversationWithDetails] of the sidebar. *)
Record ConversationWithDetails := {
  cwd_id : uuid;
  cwd_type : conversation_type;
  cwd_name : option string;
  cwd_updated_at : timestamptz;
  cwd_members : list member_detail;
  cwd_last_message : option last_message_detail
}.

(** [getConversationName]; [user_id] is [user?.id], undefined when nobody
    is signed in, and then [m.user_id !== user?.id] holds of every
    member. *)
Definition getConversationName
    (user_id : option uuid) (convo : ConversationWithDetails) : string :=
  match cwd_type convo with
  | group => js_or (cwd_name convo) "Group Chat"
  | dm =>
      let other := List.find (fun m => negb (eq_uid (md_user_id m) user_id))
                             (cwd_members convo) in
      js_or (option_map md_display_name other) "Unknown"
  end.

(** The queries of [fetchConversations] for the signed-in user [u]. *)
Module fetchConversations.

(** [from("conversation_members").select("conversation_id")
      .eq("user_id", user.id)] *)
Definition memberRows (u : uuid) (db : database) : list conversation_member :=
  List.filter (fun m => N.eqb (cm_user_id m) u)
              (select_conversation_members (authed u) db).

Definition convoIds (u : uuid) (db : database) : list uuid :=
  map cm_conversation_id (memberRows u db).

(** [from("conversations").select("*").in("id", convoIds)], before the
    ORDER BY; nothing is asked when [memberRows] is empty. *)
Definition convos (u : uuid) (db : database) : list conversation :=
  match memberRows u db with
  | [] => []
  | _ :: _ =>
      List.filter (fun c => existsb (N.eqb (c_id c)) (convoIds u db))
                  (select_conversations (authed u) db)
  end.

(** [from("conversation_members").select("user_id")
      .eq("conversation_id", c.id)], mapped to the user ids. *)
Definition memberIds (u : uuid) (db : database) (c : conversation) : list uuid :=
  map cm_user_id
      (List.filter (fun m => N.eqb (cm_conversation_id m) (c_id c))
                   (select_conversation_members (authed u) db)).

(** [from("profiles").select("id, display_name").in("id", memberIds)],
    mapped to the [members] of the sidebar entry. *)
Definition members (u : uuid) (db : database) (c : conversation)
    : list member_detail :=
  map (fun p => {| md_user_id := p_id p; md_display_name := p_display_name p |})
      (List.filter (fun p => existsb (N.eqb (p_id p)) (memberIds u db c))
                   (select_profiles (authed u) db)).

End fetchConversations.

(** The two panes of the chat page.  [activeConversationId] is a string
    or null, and both null and the empty string count as false. *)
Definition truthy (v : option string) : bool :=
  match v with
  | Some t => negb (String.eqb t "")
  | None => false
  end.

(** [const showSidebar = !isMobile || !activeConversationId] *)
Definition showSidebar (isMobile : bool) (activeConversationId : option string) : bool :=
  negb isMobile || negb (truthy activeConversationId).

(** [const showMessages = !isMobile || activeConversationId], as the
    condition of [showMessages && ...]. *)
Definition showMessages (isMobile : bool) (activeConversationId : option string) : bool :=
  negb isMobile || truthy activeConversationId.

Section MessagePanel.

(** [String.prototype.trim] of the runtime. *)
Variable trim : string -> string.

(** [sendMessage] of the message panel.  [user] and [conversationId]
    are the component's state, [new_id] and [inserted_at] what the
    column defaults [gen_random_uuid()] and [now()] give the new row,
    [client_time] is [new Date().toISOString()] and [updated_at] the
    [now()] of the second statement. *)
Definition sendMessage
    (user : option uuid) (conversationId : option uuid) (newMessage : string)
    (new_id : uuid) (inserted_at client_time updated_at : timestamptz)
    (db : database) : database :=
  match conversationId, user with
  | Some c, Some u =>
      if String.eqb (trim newMessage) "" then db
      else
        let (db1, error) :=
          exec (insert_message (authed u)
                  {| m_id := new_id; m_conversation_id := c; m_sender_id := u;
                     m_content := trim newMessage;
                     m_created_at := inserted_at |}) db in
        match error with
        | None =>
            fst (exec (update_conversations (authed u) updated_at
                         {| set_type := None; set_name := None;
                            set_created_at := None;
                            set_updated_at := Some (Some client_time) |}
                         (fun x => N.eqb (c_id x) c)) db1)
        | Some _ => db1
        end
  | _, _ => db
  end.

End MessagePanel.

(** Reduction stops at the helper and at the lookups. *)
Arguments using_allows : simpl never.
Arguments check_allows : simpl never.
Arguments is_conversation_member : simpl never.
Arguments receipt_message_visible : simpl never.
Arguments readable : simpl never.
Arguments user_exists : simpl never.
Arguments profile_exists : simpl never.
Arguments conversation_exists : simpl never.
Arguments message_exists : simpl never.

(** ** Sample data *)

Definition alice : uuid := 1.
Definition bob : uuid := 2.

Definition sample_user (u : uuid) (email : string) : auth_user :=
  {| au_id := u; au_email := Some email; au_raw_user_meta_data := None |}.

Definition sample_profile (u : uuid) (name : string) : profile :=
  {| p_id := u; p_display_name := name; p_avatar_url := None;
     p_created_at := 0; p_updated_at := 0 |}.

(** Conversation 7. *)
Definition lobby : conversation :=
  {| c_id := 7; c_type := group; c_name := Some "lobby";
     c_created_at := 0; c_updated_at := 0 |}.

(** Two identities and a conversation nobody has joined. *)
Definition orphan_db : database :=
  {| auth_users := [sample_user alice "alice@example.com";
                    sample_user bob "bob@example.com"];
     profiles := [sample_profile alice "alice@example.com";
                  sample_profile bob "bob@example.com"];
     conversations := [lobby];
     conversation_members := [];
     messages := [];
     read_receipts := [] |}.

Definition joins (id u : uuid) : conversation_member :=
  {| cm_id := id; cm_conversation_id := 7; cm_user_id := u; cm_joined_at := 1 |}.

Definition hello : message :=
  {| m_id := 20; m_conversation_id := 7; m_sender_id := alice;
     m_content := "hello"; m_created_at := 2 |}.

Definition seen_by_bob : read_receipt :=
  {| rr_id := 30; rr_message_id := 20; rr_user_id := bob; rr_read_at := 3 |}.

(** Alice and Bob are in the lobby and Alice has said hello. *)
Definition lobby_db : database :=
  {| auth_users := auth_users orphan_db;
     profiles := profiles orphan_db;
     conversations := [lobby];
     conversation_members := [joins 10 alice; joins 11 bob];
     messages := [hello];
     read_receipts := [] |}.




(** The same once Bob has read the message. *)
Definition read_db : database := with_read_receipts lobby_db [seen_by_bob].

Definition seen_again : read_receipt :=
  {| rr_id := 31; rr_message_id := 20; rr_user_id := bob; rr_read_at := 4 |}.

(** A new identity that gave a display name at signup. *)
Definition carol : auth_user :=
  {| au_id := 3; au_email := Some "carol@example.com";
     au_raw_user_meta_data := Some {[ "display_name" := JString "Carol" ]} |}.

(** A new identity without an e-mail address and without metadata. *)
Definition nameless : auth_user :=
  {| au_id := 4; au_email := None; au_raw_user_meta_data := None |}.

Definition hi : message :=
  {| m_id := 21; m_conversation_id := 7; m_sender_id := bob;
     m_content := "hi"; m_created_at := 5 |}.

(** Conversation 8, not stored yet. *)
Definition side_room : conversation :=
  {| c_id := 8; c_type := dm; c_name := None; c_created_at := 4; c_updated_at := 4 |}.

(** A direct conversation as the sidebar holds it. *)
Definition alice_and_bob : ConversationWithDetails :=
  {| cwd_id := 8; cwd_type := dm; cwd_name := None; cwd_updated_at := 4;
     cwd_members := [{| md_user_id := bob; md_display_name := "Bob" |};
                     {| md_user_id := alice; md_display_name := "Alice" |}];
     cwd_last_message := None |}.

(** * The catalogue *)

(** Both migrations run without an error. *)
Lemma migrate_succeeds : migrate = Some schema.
Proof. vm_compute. reflexivity. Qed.

(** The policies in force, in catalogue order. *)
Lemma schema_policies :
  policies schema =
  [ Users_can_view_all_profiles; Users_can_insert_own_profile;
    Users_can_update_own_profile; Members_can_view_conversations;
    Members_can_update_conversations; Members_can_view_conversation_members;
    Users_can_leave_conversations; Members_can_view_messages;
    Members_can_send_messages; Senders_can_update_messages;
    Senders_can_delete_messages;
    Users_can_view_read_receipts_in_their_conversations;
    Users_can_mark_messages_as_read;
    Authenticated_users_can_create_conversations;
    Users_can_join_or_add_members_to_their_conversations ].
Proof. vm_compute. reflexivity. Qed.

(** Row security is enabled on all five tables. *)
Lemma schema_rowsecurity t : mem_table t (relrowsecurity schema) = true.
Proof. destruct t; vm_compute; reflexivity. Qed.

Ltac rls :=
  unfold using_allows, check_allows;
  rewrite schema_rowsecurity, schema_policies;
  cbn; rewrite ?orb_false_r, ?andb_true_r; try reflexivity.

(** ** What each command comes down to for a signed-in user *)

Section Authenticated.
Variables (U : uuid) (db : database).

Lemma select_profile_rule x :
  using_allows schema SELECT (authed U) db (Row_profile x) = true.
Proof. rls. Qed.

Lemma insert_profile_rule x :
  check_allows schema INSERT (authed U) db (Row_profile x) = N.eqb (p_id x) U.
Proof. rls. Qed.

Lemma select_conversation_rule x :
  using_allows schema SELECT (authed U) db (Row_conversation x)
  = is_conversation_member db (c_id x) (Some U).
Proof. rls. Qed.

Lemma insert_conversation_rule x :
  check_allows schema INSERT (authed U) db (Row_conversation x) = true.
Proof. rls. Qed.

Lemma update_conversation_rule x :
  using_allows schema UPDATE (authed U) db (Row_conversation x)
  = is_conversation_member db (c_id x) (Some U).
Proof. rls. Qed.

Lemma update_conversation_check_rule x :
  check_allows schema UPDATE (authed U) db (Row_conversation x)
  = is_conversation_member db (c_id x) (Some U).
Proof. rls. Qed.

Lemma select_member_rule x :
  using_allows schema SELECT (authed U) db (Row_conversation_member x)
  = is_conversation_member db (cm_conversation_id x) (Some U).
Proof. rls. Qed.

Lemma insert_member_rule x :
  check_allows schema INSERT (authed U) db (Row_conversation_member x)
  = N.eqb (cm_user_id x) U
    || is_conversation_member db (cm_conversation_id x) (Some U).
Proof. rls. Qed.

Lemma delete_member_rule x :
  using_allows schema DELETE (authed U) db (Row_conversation_member x)
  = N.eqb (cm_user_id x) U.
Proof. rls. Qed.

Lemma select_message_rule x :
  using_allows schema SELECT (authed U) db (Row_message x)
  = is_conversation_member db (m_conversation_id x) (Some U).
Proof. rls. Qed.

Lemma insert_message_rule x :
  check_allows schema INSERT (authed U) db (Row_message x)
  = N.eqb (m_sender_id x) U
    && is_conversation_member db (m_conversation_id x) (Some U).
Proof. rls. Qed.



Lemma select_receipt_rule x :
  using_allows schema SELECT (authed U) db (Row_read_receipt x)
  = receipt_message_visible db (Some U) x.
Proof. rls. Qed.

Lemma insert_receipt_rule x :
  check_allows schema INSERT (authed U) db (Row_read_receipt x)
  = N.eqb (rr_user_id x) U && receipt_message_visible db (Some U) x.
Proof. rls. Qed.

End Authenticated.

(** ** The helper predicate and the membership rows *)

Lemma is_conversation_member_spec db c U :
  is_conversation_member db c (Some U) = true <-> membership db c U.
Proof.
  unfold is_conversation_member, membership. rewrite existsb_exists.
  split.
  - intros (m & Hin & H). apply andb_true_iff in H as [H1 H2].
    apply N.eqb_eq in H1. apply N.eqb_eq in H2. eauto.
  - intros (m & Hin & H1 & H2). exists m. split; [assumption|].
    cbn. rewrite H1, H2, !N.eqb_refl. reflexivity.
Qed.

Lemma is_conversation_member_false db c U :
  is_conversation_member db c (Some U) = false <-> ~ membership db c U.
Proof.
  rewrite <- is_conversation_member_spec.
  destruct (is_conversation_member db c (Some U)); split; congruence.
Qed.

Lemma orphan_not_member db c uid :
  orphan db c -> is_conversation_member db c uid = false.
Proof.
  intros Ho. unfold is_conversation_member.
  apply not_true_is_false. rewrite existsb_exists.
  intros (m & Hin & H). apply andb_true_iff in H as [H1 _].
  apply N.eqb_eq in H1. exact (Ho m Hin H1).
Qed.

Lemma OK_inj {A} (a b : A) : OK a = OK b -> a = b.
Proof. intros [= ->]. reflexivity. Qed.

(** ** Single-row inserts *)

Lemma insert_conversation_member_unfold s x db :
  insert_conversation_member s x db =
  if check_allows schema INSERT s db (Row_conversation_member x)
  then
    if existsb (fun y => N.eqb (cm_id y) (cm_id x)) (conversation_members db)
    then ERROR (unique_violation "conversation_members_pkey")
    else if existsb
              (fun y => N.eqb (cm_conversation_id y) (cm_conversation_id x)
                        && N.eqb (cm_user_id y) (cm_user_id x))
              (conversation_members db)
    then ERROR (unique_violation "conversation_members_conversation_id_user_id_key")
    else if negb (conversation_exists db (cm_conversation_id x))
    then ERROR (foreign_key_violation "conversation_members_conversation_id_fkey")
    else if negb (user_exists db (cm_user_id x))
    then ERROR (foreign_key_violation "conversation_members_user_id_fkey")
    else OK (with_conversation_members db (conversation_members db ++ [x]))
  else ERROR insufficient_privilege.
Proof.
  unfold insert_conversation_member, insert_conversation_members.
  cbn [store_checked_members].
  destruct (check_allows schema INSERT s db (Row_conversation_member x));
    cbn [negb]; [|reflexivity].
  unfold store_conversation_member.
  destruct (existsb (fun y => N.eqb (cm_id y) (cm_id x)) (conversation_members db));
    [reflexivity|].
  match goal with
  | |- context [if existsb ?f ?l then _ else _] => destruct (existsb f l)
  end; [reflexivity|].
  cbn [member_references_broken].
  change (conversation_exists (with_conversation_members db _) (cm_conversation_id x))
    with (conversation_exists db (cm_conversation_id x)).
  change (user_exists (with_conversation_members db _) (cm_user_id x))
    with (user_exists db (cm_user_id x)).
  destruct (conversation_exists db (cm_conversation_id x)); cbn [negb];
    [|reflexivity].
  destruct (user_exists db (cm_user_id x)); reflexivity.
Qed.

Lemma existsb_In_true {A} (f : A -> bool) (l : list A) (x : A) :
  In x l -> f x = true -> existsb f l = true.
Proof. intros. apply existsb_exists. eauto. Qed.

Lemma existsb_false_iff {A} (f : A -> bool) (l : list A) :
  existsb f l = false <-> forall x, In x l -> f x = false.
Proof.
  split.
  - intros H x Hin. destruct (f x) eqn:E; [|reflexivity].
    rewrite (existsb_In_true f l x Hin E) in H. discriminate.
  - intros H. apply not_true_is_false. rewrite existsb_exists.
    intros (x & Hin & E). rewrite (H x Hin) in E. discriminate.
Qed.

Lemma conversation_exists_In db c :
  In c (conversations db) -> conversation_exists db (c_id c) = true.
Proof.
  intros. unfold conversation_exists.
  apply existsb_In_true with c; [assumption | apply N.eqb_refl].
Qed.

Lemma member_after_append db x l :
  conversation_members db = (l ++ [x])%list ->
  is_conversation_member db (cm_conversation_id x) (Some (cm_user_id x)) = true.
Proof.
  intros E. apply is_conversation_member_spec. exists x.
  rewrite E, in_app_iff. cbn. tauto.
Qed.

(** ** Default deny *)

Lemma no_policy_denies cat cmd s db r :
  mem_table (table_of r) (relrowsecurity cat) = true ->
  no_policy_for cat (table_of r) cmd = true ->
  using_allows cat cmd s db r = false /\ check_allows cat cmd s db r = false.
Proof.
  unfold using_allows, check_allows, no_policy_for. intros -> Hnone.
  rewrite forallb_forall in Hnone.
  split; apply existsb_false_iff; intros p Hp; specialize (Hnone p Hp);
    unfold applies; apply negb_true_iff in Hnone; rewrite Hnone; reflexivity.
Qed.

(** ** Leaving a conversation *)

Lemma delete_conversation_members_exec s where_ db :
  exec (delete_conversation_members s where_) db =
  (with_conversation_members db
     (List.filter
        (fun x => negb (where_ x
                        && using_allows schema DELETE s db (Row_conversation_member x)))
        (conversation_members db)),
   None).
Proof. reflexivity. Qed.

Lemma leave_removes_membership db U C :
  is_conversation_member
    (fst (exec (delete_conversation_members (authed U)
                  (fun m => N.eqb (cm_conversation_id m) C && N.eqb (cm_user_id m) U))
               db))
    C (Some U) = false.
Proof.
  rewrite delete_conversation_members_exec. cbn [fst].
  unfold is_conversation_member. cbn [conversation_members with_conversation_members].
  apply existsb_false_iff. intros m Hm. apply filter_In in Hm as [_ Hm].
  rewrite delete_member_rule in Hm. cbn [eq_uid].
  destruct (N.eqb (cm_conversation_id m) C), (N.eqb (cm_user_id m) U);
    cbn in *; congruence.
Qed.

(** ** Read receipts *)

Lemma receipt_message_visible_spec db U x :
  receipt_message_visible db (Some U) x = true
  <-> exists m, In m (messages db) /\ m_id m = rr_message_id x
                /\ membership db (m_conversation_id m) U.
Proof.
  unfold receipt_message_visible. rewrite existsb_exists.
  split; intros (m & Hin & H); exists m; (split; [exact Hin|]).
  - apply andb_true_iff in H as [H1 H2]. apply N.eqb_eq in H1.
    apply is_conversation_member_spec in H2. tauto.
  - destruct H as [H1 H2]. apply andb_true_iff. split.
    + apply N.eqb_eq. exact H1.
    + apply is_conversation_member_spec. exact H2.
Qed.

Lemma receipt_visible_message_exists db uid x :
  receipt_message_visible db uid x = true -> message_exists db (rr_message_id x) = true.
Proof.
  unfold receipt_message_visible, message_exists. rewrite !existsb_exists.
  intros (m & Hin & H). apply andb_true_iff in H as [H _]. eauto.
Qed.

(** ** The signup trigger *)

Lemma user_exists_after_insert db NEW :
  user_exists (with_auth_users db (auth_users db ++ [NEW])) (au_id NEW) = true.
Proof.
  unfold user_exists. cbn [auth_users with_auth_users].
  rewrite existsb_app. cbn. rewrite N.eqb_refl. apply orb_true_r.
Qed.




Lemma insert_auth_user_inv now NEW db db' :
  insert_auth_user now NEW db = OK db' ->
  user_exists db (au_id NEW) = false
  /\ profile_exists db (au_id NEW) = false
  /\ exists name,
       new_user_display_name NEW = Some name
       /\ db' = with_profiles (with_auth_users db (auth_users db ++ [NEW]))
                  (profiles db ++
                   [{| p_id := au_id NEW; p_display_name := name;
                       p_avatar_url := None;
                       p_created_at := now; p_updated_at := now |}]).
Proof.
  unfold insert_auth_user.
  destruct (user_exists db (au_id NEW)) eqn:Hu; [discriminate|].
  unfold handle_new_user.
  destruct (new_user_display_name NEW) as [name|]; [|discriminate].
  change (profile_exists (with_auth_users db (auth_users db ++ [NEW])) (au_id NEW))
    with (profile_exists db (au_id NEW)).
  destruct (profile_exists db (au_id NEW)) eqn:Hp; [discriminate|].
  rewrite user_exists_after_insert. cbn [negb].
  intros [= <-]. split; [reflexivity|]. split; [reflexivity|].
  exists name. split; reflexivity.
Qed.

(** ** Sessions in general *)

Lemma insert_message_rule_any s db x :
  check_allows schema INSERT s db (Row_message x)
  = role_eqb (s_role s) authenticated
    && (eq_uid (m_sender_id x) (s_uid s)
        && is_conversation_member db (m_conversation_id x) (s_uid s)).
Proof. destruct s as [[] uid]; rls. Qed.

Lemma insert_receipt_rule_any s db x :
  check_allows schema INSERT s db (Row_read_receipt x)
  = role_eqb (s_role s) authenticated
    && (eq_uid (rr_user_id x) (s_uid s) && receipt_message_visible db (s_uid s) x).
Proof. destruct s as [[] uid]; rls. Qed.

Lemma signed_in_as (s : session) (k : uuid) (rest : bool) :
  role_eqb (s_role s) authenticated && (eq_uid k (s_uid s) && rest) = true ->
  s = authed k.
Proof.
  destruct s as [[] [u|]]; cbn; try discriminate.
  intros H. apply andb_true_iff in H as [H _]. apply N.eqb_eq in H.
  subst u. reflexivity.
Qed.

Lemma insert_message_needs_sender s db x :
  check_allows schema INSERT s db (Row_message x) = true ->
  s = authed (m_sender_id x).
Proof. rewrite insert_message_rule_any. apply signed_in_as. Qed.

Lemma insert_receipt_needs_reader s db x :
  check_allows schema INSERT s db (Row_read_receipt x) = true ->
  s = authed (rr_user_id x).
Proof. rewrite insert_receipt_rule_any. apply signed_in_as. Qed.

(** ** Statements on messages *)



Lemma update_rows_total {A} (touch : A -> bool) (new : A -> A) (ok : A -> bool)
    (l : list A) :
  (forall x, touch x = true -> ok (new x) = true) ->
  update_rows touch new ok None l = OK (map (fun x => if touch x then new x else x) l).
Proof.
  intros Hok. induction l as [|x l IH]; cbn; [reflexivity|].
  rewrite IH. destruct (touch x) eqn:E; [rewrite (Hok x E)|]; reflexivity.
Qed.

Lemma update_rows_untouched {A} (touch : A -> bool) (new : A -> A) (ok : A -> bool)
    (null_column : option string) (l : list A) :
  existsb touch l = false -> update_rows touch new ok null_column l = OK l.
Proof.
  induction l as [|x l IH]; cbn; [reflexivity|].
  intros H. apply orb_false_iff in H as [-> H]. rewrite (IH H). reflexivity.
Qed.

Lemma update_rows_null {A} (touch : A -> bool) (new : A -> A) (ok : A -> bool)
    (column : string) (l : list A) :
  (forall x, touch x = true -> ok (new x) = true) ->
  existsb touch l = true ->
  update_rows touch new ok (Some column) l = ERROR (not_null_violation column).
Proof.
  intros Hok. induction l as [|x l IH]; cbn; [discriminate|].
  destruct (touch x) eqn:E; [rewrite (Hok x E); reflexivity|].
  cbn. intros H. rewrite (IH H). reflexivity.
Qed.

(** * The access rules of the specification *)

(** C1. A SELECT on [conversations] by the signed-in user [U] returns the
    row [c] exactly when [c] is stored and a membership row
    (conversation [c], user [U]) is stored at that moment; the USING
    expression of the policy is that membership test. *)
Theorem view_conversation_iff_membership (db : database) (U : uuid) (c : conversation) :
  (In c (select_conversations (authed U) db)
   <-> In c (conversations db) /\ membership db (c_id c) U)
  /\ (using_allows schema SELECT (authed U) db (Row_conversation c) = true
      <-> membership db (c_id c) U).
Proof.
  unfold select_conversations. rewrite filter_In, select_conversation_rule.
  rewrite is_conversation_member_spec. tauto.
Qed.

(** C2, as the specification has it, fails: a conversation without
    members is not out of reach for good.  In [orphan_db] the INSERT
    policy of [conversation_members] accepts Alice's own membership row
    for the orphan, the insert goes through, and she then sees the
    conversation. *)
Lemma orphan_reached_by_self_join :
  orphan orphan_db (c_id lobby)
  /\ select_conversations (authed alice) orphan_db = []
  /\ check_allows schema INSERT (authed alice) orphan_db
       (Row_conversation_member (joins 10 alice)) = true
  /\ exists db',
       exec (insert_conversation_member (authed alice) (joins 10 alice)) orphan_db
       = (db', None)
       /\ select_conversations (authed alice) db' = [lobby].
Proof.
  split; [intros m []|].
  split; [vm_compute; reflexivity|].
  split; [vm_compute; reflexivity|].
  eexists. split; vm_compute; reflexivity.
Qed.

(** C2, amended.  While a stored conversation has no membership row,
    no signed-in user can view it, update it, see membership rows of it,
    or post into it or read its messages.  The state is not permanent:
    any existing user may insert the membership row that names
    themselves, and sees the conversation from then on. *)
Theorem orphan_denied_until_self_join (db : database) (c : conversation) (U : uuid)
    (Horphan : orphan db (c_id c)) (Hstored : In c (conversations db)) :
  ~ In c (select_conversations (authed U) db)
  /\ using_allows schema UPDATE (authed U) db (Row_conversation c) = false
  /\ (forall m, cm_conversation_id m = c_id c ->
        using_allows schema SELECT (authed U) db (Row_conversation_member m) = false)
  /\ (forall x, m_conversation_id x = c_id c ->
        check_allows schema INSERT (authed U) db (Row_message x) = false
        /\ using_allows schema SELECT (authed U) db (Row_message x) = false)
  /\ (forall x,
        cm_conversation_id x = c_id c -> cm_user_id x = U ->
        user_exists db U = true ->
        existsb (fun y => N.eqb (cm_id y) (cm_id x)) (conversation_members db) = false ->
        let db' := with_conversation_members db (conversation_members db ++ [x]) in
        insert_conversation_member (authed U) x db = OK db'
        /\ In c (select_conversations (authed U) db')).
Proof.
  pose proof (orphan_not_member db (c_id c) (Some U) Horphan) as Hno.
  split.
  { unfold select_conversations. rewrite filter_In, select_conversation_rule, Hno.
    intros [_ H]. discriminate. }
  split. { rewrite update_conversation_rule. exact Hno. }
  split. { intros m Hm. rewrite select_member_rule, Hm. exact Hno. }
  split.
  { intros x Hx. rewrite insert_message_rule, select_message_rule, Hx, Hno.
    rewrite andb_false_r. split; reflexivity. }
  intros x Hconv Huser Hexists Hfresh db'. split.
  - rewrite insert_conversation_member_unfold, insert_member_rule.
    rewrite Huser, N.eqb_refl. cbn [orb].
    rewrite Hfresh.
    assert (existsb
              (fun y => N.eqb (cm_conversation_id y) (cm_conversation_id x)
                        && N.eqb (cm_user_id y) U)
              (conversation_members db) = false) as ->.
    { apply existsb_false_iff. intros y Hy.
      apply andb_false_iff. left. apply N.eqb_neq. rewrite Hconv.
      exact (Horphan y Hy). }
    rewrite Hconv, (conversation_exists_In db c Hstored), Hexists.
    reflexivity.
  - unfold select_conversations. rewrite filter_In, select_conversation_rule.
    split; [exact Hstored|]. rewrite <- Hconv, <- Huser.
    apply member_after_append with (l := conversation_members db). reflexivity.
Qed.

Lemma orphan_denied_until_self_join_witness :
  ~ In lobby (select_conversations (authed alice) orphan_db)
  /\ insert_conversation_member (authed alice) (joins 10 alice) orphan_db
     = OK (with_conversation_members orphan_db [joins 10 alice]).
Proof.
  assert (orphan orphan_db (c_id lobby)) as Ho by (intros m []).
  assert (In lobby (conversations orphan_db)) as Hs by (left; reflexivity).
  destruct (orphan_denied_until_self_join orphan_db lobby alice Ho Hs)
    as (Hview & _ & _ & _ & Hjoin).
  split; [exact Hview|].
  destruct (Hjoin (joins 10 alice) eq_refl eq_refl eq_refl eq_refl) as [Hins _].
  exact Hins.
Defined.




(** C4, as the specification has it, fails: membership of the caller is
    not enough for the insert to succeed.  In [lobby_db] Alice is a
    member and invites Bob, who is a member already; the row passes the
    row check and is then refused by the UNIQUE constraint. *)
Lemma member_invite_can_fail :
  membership lobby_db (cm_conversation_id (joins 12 bob)) alice
  /\ cm_user_id (joins 12 bob) <> alice
  /\ check_allows schema INSERT (authed alice) lobby_db
       (Row_conversation_member (joins 12 bob)) = true
  /\ exec (insert_conversation_member (authed alice) (joins 12 bob)) lobby_db
     = (lobby_db,
        Some (unique_violation "conversation_members_conversation_id_user_id_key")).
Proof.
  split.
  { exists (joins 10 alice). split; [left; reflexivity|]. split; reflexivity. }
  split; [discriminate|]. split; vm_compute; reflexivity.
Qed.

(** C4, amended.  An INSERT into [conversation_members] by the signed-in
    user [U] that names [U] passes the row check; one that names somebody
    else passes it exactly when [U] holds a membership row of that
    conversation, and is refused with the row-security error otherwise.
    The insert succeeds exactly when the row passes the row check, its id
    is new, the named user is not a member of the conversation yet, and
    the conversation and the named user exist; the row is then appended. *)
Theorem member_insert_self_or_by_member (db : database) (U : uuid) (x : conversation_member) :
  (cm_user_id x = U ->
     check_allows schema INSERT (authed U) db (Row_conversation_member x) = true)
  /\ (cm_user_id x <> U ->
        (check_allows schema INSERT (authed U) db (Row_conversation_member x) = true
         <-> membership db (cm_conversation_id x) U)
        /\ (insert_conversation_member (authed U) x db = ERROR insufficient_privilege
            <-> ~ membership db (cm_conversation_id x) U))
  /\ (forall db',
        insert_conversation_member (authed U) x db = OK db'
        <-> (cm_user_id x = U \/ membership db (cm_conversation_id x) U)
            /\ existsb (fun y => N.eqb (cm_id y) (cm_id x)) (conversation_members db)
               = false
            /\ ~ membership db (cm_conversation_id x) (cm_user_id x)
            /\ conversation_exists db (cm_conversation_id x) = true
            /\ user_exists db (cm_user_id x) = true
            /\ db' = with_conversation_members db (conversation_members db ++ [x])).
Proof.
  split; [|split].
  - intros <-. rewrite insert_member_rule, N.eqb_refl. reflexivity.
  - intros Hne. rewrite insert_conversation_member_unfold, insert_member_rule.
    apply N.eqb_neq in Hne. rewrite Hne. cbn [orb].
    rewrite <- is_conversation_member_spec.
    destruct (is_conversation_member db (cm_conversation_id x) (Some U)).
    + split; [tauto|]. split; [|intros H; exfalso; apply H; reflexivity].
      repeat match goal with |- context [if ?b then _ else _] => destruct b end;
        discriminate.
    + split; [tauto|]. split; [discriminate|reflexivity].
  - intros db'. rewrite insert_conversation_member_unfold, insert_member_rule.
    assert (~ membership db (cm_conversation_id x) (cm_user_id x)
            <-> existsb
                  (fun y => N.eqb (cm_conversation_id y) (cm_conversation_id x)
                            && N.eqb (cm_user_id y) (cm_user_id x))
                  (conversation_members db) = false) as ->.
    { rewrite <- is_conversation_member_false. reflexivity. }
    assert (cm_user_id x = U \/ membership db (cm_conversation_id x) U
            <-> N.eqb (cm_user_id x) U
                || is_conversation_member db (cm_conversation_id x) (Some U) = true)
      as ->.
    { rewrite orb_true_iff, N.eqb_eq, is_conversation_member_spec. reflexivity. }
    destruct (N.eqb (cm_user_id x) U
              || is_conversation_member db (cm_conversation_id x) (Some U));
      [|split; [discriminate|intros (H & _); discriminate H]].
    destruct (existsb (fun y => N.eqb (cm_id y) (cm_id x)) (conversation_members db));
      [split; [discriminate|intros (_ & H & _); discriminate H]|].
    match goal with
    | |- context [if existsb ?f ?l then _ else _] => destruct (existsb f l)
    end; [split; [discriminate|intros (_ & _ & H & _); discriminate H]|].
    destruct (conversation_exists db (cm_conversation_id x)); cbn [negb];
      [|split; [discriminate|intros (_ & _ & _ & H & _); discriminate H]].
    destruct (user_exists db (cm_user_id x)); cbn [negb];
      [|split; [discriminate|intros (_ & _ & _ & _ & H & _); discriminate H]].
    split.
    + intros [= <-]. repeat split; reflexivity.
    + intros (_ & _ & _ & _ & _ & ->). reflexivity.
Qed.

Lemma member_insert_self_or_by_member_witness :
  check_allows schema INSERT (authed alice) orphan_db
    (Row_conversation_member (joins 10 alice)) = true
  /\ insert_conversation_member (authed alice) (joins 11 bob) orphan_db
     = ERROR insufficient_privilege
  /\ insert_conversation_member (authed alice) (joins 10 alice) orphan_db
     = OK (with_conversation_members orphan_db [joins 10 alice]).
Proof.
  split; [|split].
  - exact (proj1 (member_insert_self_or_by_member orphan_db alice (joins 10 alice))
                  eq_refl).
  - assert (cm_user_id (joins 11 bob) <> alice) as Hne by discriminate.
    destruct (proj1 (proj2 (member_insert_self_or_by_member orphan_db alice
                              (joins 11 bob))) Hne) as [_ H].
    apply H. intros (m & [] & _).
  - apply (proj2 (proj2 (member_insert_self_or_by_member orphan_db alice
                           (joins 10 alice)))).
    split; [left; reflexivity|]. split; [reflexivity|].
    split; [intros (m & [] & _)|]. repeat split; reflexivity.
Defined.

(** C5. An INSERT into [messages] by the signed-in user [U] passes the
    row check exactly when the row names [U] as sender and [U] holds a
    membership row of the target conversation.  Once [U] has deleted
    their own membership of that conversation, the same insert is refused
    with the row-security error. *)
Theorem message_insert_iff_sender_and_member (db : database) (U : uuid) (x : message) :
  (check_allows schema INSERT (authed U) db (Row_message x) = true
   <-> m_sender_id x = U /\ membership db (m_conversation_id x) U)
  /\ (let left_ :=
        fst (exec (delete_conversation_members (authed U)
                     (fun m => N.eqb (cm_conversation_id m) (m_conversation_id x)
                               && N.eqb (cm_user_id m) U))
                  db) in
      check_allows schema INSERT (authed U) left_ (Row_message x) = false
      /\ insert_message (authed U) x left_ = ERROR insufficient_privilege).
Proof.
  split.
  - rewrite insert_message_rule, andb_true_iff, N.eqb_eq,
      is_conversation_member_spec. tauto.
  - intros left_.
    assert (check_allows schema INSERT (authed U) left_ (Row_message x) = false) as H.
    { rewrite insert_message_rule. unfold left_.
      rewrite leave_removes_membership. apply andb_false_r. }
    split; [exact H|]. unfold insert_message. rewrite H. reflexivity.
Qed.

(** C6. The DELETE policy of [conversation_members] lets the signed-in
    user [U] through on a row exactly when the row names [U].  A DELETE
    statement of [U] therefore leaves every row of another user where it
    is, member of the conversation or not, and removes the rows of [U]
    that it selects. *)
Theorem member_delete_only_self (db : database) (U : uuid) (r : conversation_member) :
  (using_allows schema DELETE (authed U) db (Row_conversation_member r) = true
   <-> cm_user_id r = U)
  /\ (forall where_,
        let db' := fst (exec (delete_conversation_members (authed U) where_) db) in
        (In r (conversation_members db) -> cm_user_id r <> U ->
         In r (conversation_members db'))
        /\ (cm_user_id r = U -> where_ r = true ->
            ~ In r (conversation_members db'))
        /\ (In r (conversation_members db') -> In r (conversation_members db))).
Proof.
  rewrite delete_member_rule, N.eqb_eq. split; [tauto|].
  intros where_ db'. unfold db'. rewrite delete_conversation_members_exec.
  cbn [fst conversation_members with_conversation_members].
  rewrite filter_In, delete_member_rule.
  split; [|split].
  - intros Hin Hne. split; [exact Hin|].
    apply N.eqb_neq in Hne. rewrite Hne, andb_false_r. reflexivity.
  - intros Hu Hw [_ H]. apply N.eqb_eq in Hu. rewrite Hu, Hw in H. discriminate.
  - tauto.
Qed.

Lemma member_delete_only_self_witness :
  In (joins 11 bob)
     (conversation_members
        (fst (exec (delete_conversation_members (authed alice) (fun _ => true))
                   lobby_db)))
  /\ ~ In (joins 10 alice)
       (conversation_members
          (fst (exec (delete_conversation_members (authed alice) (fun _ => true))
                     lobby_db))).
Proof.
  split.
  - apply (proj2 (member_delete_only_self lobby_db alice (joins 11 bob))
                 (fun _ => true)).
    + right. left. reflexivity.
    + discriminate.
  - apply (proj2 (member_delete_only_self lobby_db alice (joins 10 alice))
                 (fun _ => true)); reflexivity.
Defined.

(** C7, as the specification has it, fails: the duplicate is not always
    refused with a uniqueness violation.  In [read_db] Bob's receipt is
    stored; when Alice inserts a second receipt naming Bob for the same
    message, the row check comes first and the error is the row-security
    error. *)
Lemma duplicate_receipt_by_another_caller :
  (exists y, In y (read_receipts read_db)
             /\ rr_message_id y = rr_message_id seen_again
             /\ rr_user_id y = rr_user_id seen_again)
  /\ exec (insert_read_receipt (authed alice) seen_again) read_db
     = (read_db, Some insufficient_privilege).
Proof.
  split.
  - exists seen_by_bob. split; [left; reflexivity|]. split; reflexivity.
  - vm_compute. reflexivity.
Qed.

(** C7, amended.  When a receipt for the same (message, user) pair is
    stored, an INSERT of another one fails whoever issues it and the
    table stays as it was.  The error is the uniqueness violation when
    the row passes the row check, that is when the session is the user
    the row names and that user is a member of the conversation of the
    stored message, and the row-security error otherwise.  The first
    receipt of user [U] for a stored message of a conversation [U]
    belongs to is accepted and appended, given a new id and an existing
    user. *)
Theorem duplicate_receipt_rejected (db : database) (U : uuid) (x : read_receipt) :
  ((exists y, In y (read_receipts db)
              /\ rr_message_id y = rr_message_id x /\ rr_user_id y = rr_user_id x) ->
   forall s, exists e,
     exec (insert_read_receipt s x) db = (db, Some e)
     /\ (check_allows schema INSERT s db (Row_read_receipt x) = true ->
         is_unique_violation e = true)
     /\ (check_allows schema INSERT s db (Row_read_receipt x) = false ->
         e = insufficient_privilege))
  /\ (forall s,
        check_allows schema INSERT s db (Row_read_receipt x) = true
        <-> s = authed (rr_user_id x)
            /\ exists m, In m (messages db) /\ m_id m = rr_message_id x
                         /\ membership db (m_conversation_id m) (rr_user_id x))
  /\ (rr_user_id x = U ->
      (exists m, In m (messages db) /\ m_id m = rr_message_id x
                 /\ membership db (m_conversation_id m) U) ->
      user_exists db U = true ->
      (forall y, In y (read_receipts db) -> rr_id y <> rr_id x) ->
      (forall y, In y (read_receipts db) ->
                 ~ (rr_message_id y = rr_message_id x /\ rr_user_id y = rr_user_id x)) ->
      exec (insert_read_receipt (authed U) x) db
      = (with_read_receipts db (read_receipts db ++ [x]), None)).
Proof.
  split; [|split].
  - intros (y & Hy & Hm & Hu) s.
    assert (existsb
              (fun y => N.eqb (rr_message_id y) (rr_message_id x)
                        && N.eqb (rr_user_id y) (rr_user_id x))
              (read_receipts db) = true) as Hdup.
    { apply existsb_In_true with y; [exact Hy|].
      rewrite Hm, Hu, !N.eqb_refl. reflexivity. }
    unfold exec, insert_read_receipt. rewrite Hdup.
    destruct (check_allows schema INSERT s db (Row_read_receipt x)); cbn [negb].
    + destruct (existsb (fun y => N.eqb (rr_id y) (rr_id x)) (read_receipts db));
        eexists; (split; [reflexivity|]); split; (reflexivity || discriminate).
    + eexists. split; [reflexivity|]. split; [discriminate|reflexivity].
  - intros s. split.
    + intros H. pose proof (insert_receipt_needs_reader s db x H) as ->.
      split; [reflexivity|]. rewrite insert_receipt_rule in H.
      apply andb_true_iff in H as [_ H].
      apply receipt_message_visible_spec. exact H.
    + intros [-> H]. rewrite insert_receipt_rule, N.eqb_refl.
      apply receipt_message_visible_spec. exact H.
  - intros Hu Hvis Hexists Hid Hpair.
    assert (receipt_message_visible db (Some U) x = true) as Hv
      by (apply receipt_message_visible_spec; exact Hvis).
    unfold exec, insert_read_receipt.
    rewrite insert_receipt_rule, Hu, N.eqb_refl, Hv. cbn [negb andb].
    assert (existsb (fun y => N.eqb (rr_id y) (rr_id x)) (read_receipts db) = false)
      as ->.
    { apply existsb_false_iff. intros y Hy. apply N.eqb_neq. exact (Hid y Hy). }
    assert (existsb
              (fun y => N.eqb (rr_message_id y) (rr_message_id x)
                        && N.eqb (rr_user_id y) U)
              (read_receipts db) = false) as ->.
    { apply existsb_false_iff. intros y Hy.
      destruct (N.eqb (rr_message_id y) (rr_message_id x)) eqn:E1;
        [|reflexivity].
      destruct (N.eqb (rr_user_id y) U) eqn:E2; [|reflexivity].
      apply N.eqb_eq in E1. apply N.eqb_eq in E2.
      exfalso. apply (Hpair y Hy). rewrite Hu. tauto. }
    rewrite (receipt_visible_message_exists db (Some U) x Hv), Hexists.
    reflexivity.
Qed.

Lemma duplicate_receipt_rejected_witness :
  (exists e,
     exec (insert_read_receipt (authed bob) seen_again) read_db = (read_db, Some e)
     /\ (check_allows schema INSERT (authed bob) read_db (Row_read_receipt seen_again)
         = true -> is_unique_violation e = true)
     /\ (check_allows schema INSERT (authed bob) read_db (Row_read_receipt seen_again)
         = false -> e = insufficient_privilege))
  /\ exec (insert_read_receipt (authed bob) seen_by_bob) lobby_db = (read_db, None).
Proof.
  split.
  - apply (proj1 (duplicate_receipt_rejected read_db bob seen_again)).
    exists seen_by_bob. split; [left; reflexivity|]. split; reflexivity.
  - apply (proj2 (proj2 (duplicate_receipt_rejected lobby_db bob seen_by_bob))).
    + reflexivity.
    + exists hello. split; [left; reflexivity|]. split; [reflexivity|].
      exists (joins 11 bob). split; [right; left; reflexivity|].
      split; reflexivity.
    + reflexivity.
    + intros y [].
    + intros y [].
Defined.



(** C9. Every signed-in user sees every profile row: the SELECT policy of
    [profiles] has no condition.  The SELECT policies of the other four
    tables all come down to a membership row of the user. *)
Theorem profiles_visible_to_all (db : database) (U : uuid) :
  select_profiles (authed U) db = profiles db
  /\ (forall x, using_allows schema SELECT (authed U) db (Row_conversation x) = true
                <-> membership db (c_id x) U)
  /\ (forall x, using_allows schema SELECT (authed U) db (Row_conversation_member x) = true
                <-> membership db (cm_conversation_id x) U)
  /\ (forall x, using_allows schema SELECT (authed U) db (Row_message x) = true
                <-> membership db (m_conversation_id x) U)
  /\ (forall x, using_allows schema SELECT (authed U) db (Row_read_receipt x) = true
                <-> exists m, In m (messages db) /\ m_id m = rr_message_id x
                              /\ membership db (m_conversation_id m) U).
Proof.
  split.
  { unfold select_profiles. induction (profiles db) as [|p l IH]; [reflexivity|].
    cbn [List.filter]. rewrite select_profile_rule, IH. reflexivity. }
  repeat split; intros H.
  all: try (rewrite ?select_conversation_rule, ?select_member_rule,
              ?select_message_rule in *;
            apply is_conversation_member_spec; exact H).
  - rewrite select_receipt_rule in H. apply receipt_message_visible_spec. exact H.
  - rewrite select_receipt_rule. apply receipt_message_visible_spec. exact H.
Qed.

(** C10. Row security is enabled on every table, and no policy is for
    DELETE on [conversations], UPDATE on [conversation_members], or
    UPDATE or DELETE on [read_receipts]: in every database, for every
    session and every row, those commands find no row they may touch and
    no new row they may write. *)
Theorem commands_without_policy_denied (s : session) (db : database) :
  (forall x, using_allows schema DELETE s db (Row_conversation x) = false)
  /\ (forall x, using_allows schema UPDATE s db (Row_conversation_member x) = false
                /\ check_allows schema UPDATE s db (Row_conversation_member x) = false)
  /\ (forall x, using_allows schema UPDATE s db (Row_read_receipt x) = false
                /\ check_allows schema UPDATE s db (Row_read_receipt x) = false)
  /\ (forall x, using_allows schema DELETE s db (Row_read_receipt x) = false).
Proof.
  repeat split; intros;
    apply no_policy_denies; solve [apply schema_rowsecurity | vm_compute; reflexivity].
Qed.

(** * Further properties of the migrations *)

Lemma schema_v1_policies :
  policies schema_v1 =
  [ Users_can_view_all_profiles; Users_can_insert_own_profile;
    Users_can_update_own_profile; Members_can_view_conversations;
    Authenticated_users_can_create_conversations;
    Members_can_update_conversations; Members_can_view_conversation_members;
    Authenticated_users_can_add_members;
    Users_can_leave_conversations; Members_can_view_messages;
    Members_can_send_messages; Senders_can_update_messages;
    Senders_can_delete_messages;
    Users_can_view_read_receipts_in_their_conversations;
    Users_can_mark_messages_as_read ].
Proof. vm_compute. reflexivity. Qed.

Lemma schema_v1_rowsecurity t : mem_table t (relrowsecurity schema_v1) = true.
Proof. destruct t; vm_compute; reflexivity. Qed.

Ltac rls_both :=
  unfold using_allows, check_allows;
  rewrite ?schema_rowsecurity, ?schema_policies,
    ?schema_v1_rowsecurity, ?schema_v1_policies;
  cbn; rewrite ?orb_false_r, ?andb_true_r.

(** X1. The second migration changes one decision only.  USING decides as
    after the first migration for every command, session and row, and so
    does WITH CHECK except for INSERT on [conversation_members]: there the
    first migration accepted every row of a signed-in user, and the second
    accepts some of them.  Dropping and re-creating the INSERT policy of
    [conversations] changes nothing. *)
Theorem second_migration_tightens_member_insert_only
    (cmd : command) (s : session) (db : database) (r : row) :
  using_allows schema cmd s db r = using_allows schema_v1 cmd s db r
  /\ ((table_of r = T_conversation_members /\ cmd = INSERT)
      \/ check_allows schema cmd s db r = check_allows schema_v1 cmd s db r)
  /\ (check_allows schema cmd s db r = true -> check_allows schema_v1 cmd s db r = true)
  /\ (forall U x,
        check_allows schema_v1 INSERT (authed U) db (Row_conversation_member x) = true).
Proof.
  split; [|split; [|split]].
  - destruct s as [[] uid], cmd, r; rls_both; reflexivity.
  - destruct s as [[] uid], cmd, r; rls_both;
      solve [right; reflexivity | left; split; reflexivity].
  - destruct s as [[] uid], cmd, r; rls_both; auto.
  - intros U x. rls_both. reflexivity.
Qed.

(** X2. A request without a signed-in user gets nothing: every policy is for
    the role [authenticated], so for the role [anon] no row of any table
    passes USING or WITH CHECK of any command, every SELECT is empty and
    every INSERT is refused with the row-security error. *)
Theorem anon_denied_everything
    (uid : option uuid) (cmd : command) (db : database) (r : row) :
  let s := {| s_role := anon; s_uid := uid |} in
  using_allows schema cmd s db r = false
  /\ check_allows schema cmd s db r = false
  /\ select_profiles s db = [] /\ select_conversations s db = []
  /\ select_conversation_members s db = [] /\ select_messages s db = []
  /\ select_read_receipts s db = []
  /\ (forall x, insert_conversation s x db = ERROR insufficient_privilege)
  /\ (forall x, insert_conversation_member s x db = ERROR insufficient_privilege)
  /\ (forall x, insert_message s x db = ERROR insufficient_privilege)
  /\ (forall x, insert_read_receipt s x db = ERROR insufficient_privilege).
Proof.
  intros s.
  assert (forall c r', using_allows schema c s db r' = false) as Hu
    by (intros c r'; destruct c, r'; rls_both; reflexivity).
  assert (forall c r', check_allows schema c s db r' = false) as Hc
    by (intros c r'; destruct c, r'; rls_both; reflexivity).
  assert (forall A (f : A -> row) (l : list A),
            List.filter (fun x => using_allows schema SELECT s db (f x)) l = []) as Hf.
  { intros A f l. induction l as [|a l IH]; [reflexivity|].
    cbn [List.filter]. rewrite Hu. exact IH. }
  split; [apply Hu|]. split; [apply Hc|].
  do 5 (split; [apply Hf|]).
  split; [|split; [|split]]; intros x.
  - unfold insert_conversation. rewrite Hc. reflexivity.
  - rewrite insert_conversation_member_unfold, Hc. reflexivity.
  - unfold insert_message. rewrite Hc. reflexivity.
  - unfold insert_read_receipt. rewrite Hc. reflexivity.
Qed.

(** * Keys and references are kept *)

Section ListFacts.
Context {A K : Type}.

Lemma NoDup_map_snoc (f : A -> K) (l : list A) (x : A) :
  List.NoDup (map f l) -> (forall y, In y l -> f y <> f x) -> List.NoDup (map f (l ++ [x])).
Proof.
  intros Hnd Hfresh. rewrite map_app. cbn.
  induction l as [|a l IH]; cbn.
  - apply List.NoDup_cons; [intros []|apply List.NoDup_nil].
  - inversion Hnd as [|? ? Ha Hl]; subst. apply List.NoDup_cons.
    + rewrite in_app_iff. intros [H|[H|[]]]; [contradiction|].
      apply (Hfresh a (or_introl eq_refl)). symmetry. exact H.
    + apply IH; [exact Hl|]. intros y Hy. apply Hfresh. right. exact Hy.
Qed.

Lemma NoDup_map_filter (f : A -> K) (p : A -> bool) (l : list A) :
  List.NoDup (map f l) -> List.NoDup (map f (List.filter p l)).
Proof.
  induction l as [|a l IH]; cbn; intros Hnd; [apply List.NoDup_nil|].
  inversion Hnd as [|? ? Ha Hl]; subst.
  destruct (p a); cbn; [apply List.NoDup_cons|]; auto.
  intros Hin. apply Ha. apply in_map_iff in Hin as (y & Hy & Hin).
  apply filter_In in Hin as [Hin _]. apply in_map_iff. eauto.
Qed.

Lemma existsb_snoc_l (f : A -> bool) (l : list A) (x : A) :
  existsb f l = true -> existsb f (l ++ [x]) = true.
Proof. intros H. rewrite existsb_app, H. reflexivity. Qed.

Lemma existsb_snoc_r (f : A -> bool) (l : list A) (x : A) :
  f x = true -> existsb f (l ++ [x]) = true.
Proof. intros H. rewrite existsb_app. cbn. rewrite H. apply orb_true_r. Qed.

Lemma existsb_filter_keep (f p : A -> bool) (l : list A) :
  (forall y, In y l -> f y = true -> p y = true) ->
  existsb f l = true -> existsb f (List.filter p l) = true.
Proof.
  intros Hkeep H. apply existsb_exists in H as (y & Hy & Hf).
  apply existsb_exists. exists y. split; [|exact Hf].
  apply filter_In. split; [exact Hy|]. apply Hkeep; assumption.
Qed.

End ListFacts.

Lemma eqb_false_fresh {A} (key : A -> N) (l : list A) (k : N) :
  existsb (fun y => N.eqb (key y) k) l = false ->
  forall y, In y l -> key y <> k.
Proof.
  intros H y Hy. apply N.eqb_neq.
  exact (proj1 (existsb_false_iff _ l) H y Hy).
Qed.

Lemma pair_false_fresh {A} (k1 k2 : A -> N) (l : list A) (a b : N) :
  existsb (fun y => N.eqb (k1 y) a && N.eqb (k2 y) b) l = false ->
  forall y, In y l -> (k1 y, k2 y) <> (a, b).
Proof.
  intros H y Hy [= E1 E2].
  pose proof (proj1 (existsb_false_iff _ l) H y Hy) as Hf. cbn in Hf.
  rewrite E1, E2, !N.eqb_refl in Hf. discriminate.
Qed.

Ltac open_db :=
  unfold user_exists, profile_exists, conversation_exists, message_exists in *;
  cbn [auth_users profiles conversations conversation_members messages
       read_receipts with_auth_users with_profiles with_conversations
       with_conversation_members with_messages with_read_receipts] in *.

Lemma insert_profile_consistent s x db db' :
  consistent db -> insert_profile s x db = OK db' -> consistent db'.
Proof.
  intros [U1 U2 U3 U4 U5 U6 U7 U8 F1 F2 F3 F4 F5 F6 F7]. unfold insert_profile.
  destruct (check_allows schema INSERT s db (Row_profile x)); [|discriminate].
  destruct (profile_exists db (p_id x)) eqn:Hfresh; [discriminate|].
  destruct (user_exists db (p_id x)) eqn:Hu; [|discriminate].
  intros [= <-]. split; open_db; try assumption.
  - apply NoDup_map_snoc; [assumption|]. apply eqb_false_fresh. exact Hfresh.
  - intros y Hy. apply in_app_iff in Hy as [Hy|[<-|[]]]; auto.
Qed.

Lemma insert_conversation_consistent s x db db' :
  consistent db -> insert_conversation s x db = OK db' -> consistent db'.
Proof.
  intros [U1 U2 U3 U4 U5 U6 U7 U8 F1 F2 F3 F4 F5 F6 F7]. unfold insert_conversation.
  destruct (check_allows schema INSERT s db (Row_conversation x)); [|discriminate].
  destruct (conversation_exists db (c_id x)) eqn:Hfresh; [discriminate|].
  intros [= <-]. split; open_db; try assumption.
  - apply NoDup_map_snoc; [assumption|]. apply eqb_false_fresh. exact Hfresh.
  - intros y Hy. apply existsb_snoc_l. auto.
  - intros y Hy. apply existsb_snoc_l. auto.
Qed.

Lemma store_conversation_member_inv x db db' :
  store_conversation_member x db = OK db' ->
  db' = with_conversation_members db (conversation_members db ++ [x])
  /\ (forall y, In y (conversation_members db) -> cm_id y <> cm_id x)
  /\ (forall y, In y (conversation_members db) ->
                (cm_conversation_id y, cm_user_id y)
                <> (cm_conversation_id x, cm_user_id x)).
Proof.
  unfold store_conversation_member.
  destruct (existsb (fun y => N.eqb (cm_id y) (cm_id x)) (conversation_members db))
    eqn:Hid; [discriminate|].
  match goal with
  | |- context [if existsb ?f ?l then _ else _] => destruct (existsb f l) eqn:Hpair
  end; [discriminate|].
  intros [= <-]. split; [reflexivity|]. split.
  - apply eqb_false_fresh. exact Hid.
  - apply (pair_false_fresh cm_conversation_id cm_user_id). exact Hpair.
Qed.

Lemma store_checked_members_inv s snapshot xs db db' :
  store_checked_members s snapshot xs db = OK db' ->
  db' = with_conversation_members db (conversation_members db ++ xs)
  /\ (List.NoDup (map cm_id (conversation_members db)) ->
      List.NoDup (map cm_id (conversation_members db ++ xs)))
  /\ (List.NoDup (map (fun x => (cm_conversation_id x, cm_user_id x))
                     (conversation_members db)) ->
      List.NoDup (map (fun x => (cm_conversation_id x, cm_user_id x))
                     (conversation_members db ++ xs))).
Proof.
  revert db. induction xs as [|x xs IH]; intros db; cbn [store_checked_members].
  - intros [= <-]. rewrite app_nil_r. destruct db; repeat split; auto.
  - destruct (check_allows schema INSERT s snapshot (Row_conversation_member x));
      [|discriminate]. cbn [negb].
    destruct (store_conversation_member x db) as [db1|e] eqn:E; [|discriminate].
    apply store_conversation_member_inv in E as (-> & Hid & Hpair).
    intros H. apply IH in H as (-> & H1 & H2).
    cbn [conversation_members with_conversation_members] in *.
    rewrite <- app_assoc in *. cbn [app] in *.
    split; [reflexivity|]. split; intros Hnd.
    + apply H1. apply NoDup_map_snoc; assumption.
    + apply H2. apply (NoDup_map_snoc (fun x => (cm_conversation_id x, cm_user_id x)));
        assumption.
Qed.

Lemma member_references_hold xs db :
  member_references_broken xs db = None ->
  forall x, In x xs ->
    conversation_exists db (cm_conversation_id x) = true
    /\ user_exists db (cm_user_id x) = true.
Proof.
  induction xs as [|y xs IH]; cbn [member_references_broken]; [intros _ x []|].
  destruct (conversation_exists db (cm_conversation_id y)) eqn:Hc; cbn [negb];
    [|discriminate].
  destruct (user_exists db (cm_user_id y)) eqn:Hu; cbn [negb]; [|discriminate].
  intros H x [<-|Hx]; auto.
Qed.

Lemma insert_conversation_members_inv s xs db db' :
  insert_conversation_members s xs db = OK db' ->
  store_checked_members s db xs db = OK db'
  /\ member_references_broken xs db' = None.
Proof.
  unfold insert_conversation_members.
  destruct (store_checked_members s db xs db) as [db1|e]; [|discriminate].
  destruct (member_references_broken xs db1) eqn:E; [discriminate|].
  intros [= <-]. split; [reflexivity|exact E].
Qed.

Lemma insert_conversation_members_consistent s xs db db' :
  consistent db -> insert_conversation_members s xs db = OK db' -> consistent db'.
Proof.
  intros [U1 U2 U3 U4 U5 U6 U7 U8 F1 F2 F3 F4 F5 F6 F7] H.
  apply insert_conversation_members_inv in H as [H Hrefs].
  apply store_checked_members_inv in H as (-> & Hid & Hpair).
  pose proof (member_references_hold xs _ Hrefs) as Hhold.
  split; open_db; try assumption; auto.
  - intros y Hy. apply in_app_iff in Hy as [Hy|Hy]; [auto|].
    apply (Hhold y Hy).
  - intros y Hy. apply in_app_iff in Hy as [Hy|Hy]; [auto|].
    apply (Hhold y Hy).
Qed.

Lemma insert_message_consistent s x db db' :
  consistent db -> insert_message s x db = OK db' -> consistent db'.
Proof.
  intros [U1 U2 U3 U4 U5 U6 U7 U8 F1 F2 F3 F4 F5 F6 F7]. unfold insert_message.
  destruct (check_allows schema INSERT s db (Row_message x)); [|discriminate].
  destruct (message_exists db (m_id x)) eqn:Hid; [discriminate|].
  destruct (conversation_exists db (m_conversation_id x)) eqn:Hc; [|discriminate].
  destruct (user_exists db (m_sender_id x)) eqn:Hu; [|discriminate].
  intros [= <-]. split; open_db; try assumption.
  - apply NoDup_map_snoc; [assumption|]. apply eqb_false_fresh. exact Hid.
  - intros y Hy. apply in_app_iff in Hy as [Hy|[<-|[]]]; auto.
  - intros y Hy. apply in_app_iff in Hy as [Hy|[<-|[]]]; auto.
  - intros y Hy. apply existsb_snoc_l. auto.
Qed.

Lemma insert_read_receipt_consistent s x db db' :
  consistent db -> insert_read_receipt s x db = OK db' -> consistent db'.
Proof.
  intros [U1 U2 U3 U4 U5 U6 U7 U8 F1 F2 F3 F4 F5 F6 F7]. unfold insert_read_receipt.
  destruct (check_allows schema INSERT s db (Row_read_receipt x)); [|discriminate].
  destruct (existsb (fun y => N.eqb (rr_id y) (rr_id x)) (read_receipts db))
    eqn:Hid; [discriminate|].
  match goal with
  | |- context [if existsb ?f ?l then _ else _] => destruct (existsb f l) eqn:Hpair
  end; [discriminate|].
  destruct (message_exists db (rr_message_id x)) eqn:Hm; [|discriminate].
  destruct (user_exists db (rr_user_id x)) eqn:Hu; [|discriminate].
  intros [= <-]. split; open_db; try assumption.
  - apply NoDup_map_snoc; [assumption|]. apply eqb_false_fresh. exact Hid.
  - apply NoDup_map_snoc; [assumption|].
    apply (pair_false_fresh rr_message_id rr_user_id). exact Hpair.
  - intros y Hy. apply in_app_iff in Hy as [Hy|[<-|[]]]; auto.
  - intros y Hy. apply in_app_iff in Hy as [Hy|[<-|[]]]; auto.
Qed.

Lemma update_rows_keeps {A K} (key : A -> K) touch new ok nc (l l' : list A) :
  (forall x, key (new x) = key x) ->
  update_rows touch new ok nc l = OK l' -> map key l' = map key l.
Proof.
  intros Hkey. revert l'. induction l as [|x l IH]; intros l'; cbn.
  - intros [= <-]. reflexivity.
  - destruct (touch x).
    + destruct (ok (new x)); [|discriminate].
      destruct nc; [discriminate|].
      destruct (update_rows touch new ok None l) as [r|e]; [|discriminate].
      intros [= <-]. cbn. rewrite Hkey, (IH r eq_refl). reflexivity.
    + destruct (update_rows touch new ok nc l) as [r|e]; [|discriminate].
      intros [= <-]. cbn. rewrite (IH r eq_refl). reflexivity.
Qed.

Lemma existsb_by_key {A} (key : A -> N) (k : N) (l : list A) :
  existsb (fun x => N.eqb (key x) k) l = existsb (fun i => N.eqb i k) (map key l).
Proof. induction l as [|x l IH]; cbn; [|rewrite IH]; reflexivity. Qed.

Lemma existsb_key_congr {A} (key : A -> N) (l l' : list A) (k : N) :
  map key l = map key l' ->
  existsb (fun x => N.eqb (key x) k) l = existsb (fun x => N.eqb (key x) k) l'.
Proof.
  intros H. rewrite (existsb_by_key key k l), (existsb_by_key key k l'), H.
  reflexivity.
Qed.

Lemma update_conversations_ids s now a where_ db db' :
  update_conversations s now a where_ db = OK db' ->
  exists l, db' = with_conversations db l
            /\ map c_id l = map c_id (conversations db).
Proof.
  unfold update_conversations.
  destruct (update_rows _ _ _ _ (conversations db)) as [l|e] eqn:E; [|discriminate].
  intros [= <-]. exists l. split; [reflexivity|].
  eapply (update_rows_keeps c_id); [|exact E]. reflexivity.
Qed.

Lemma update_conversations_consistent s now a where_ db db' :
  consistent db -> update_conversations s now a where_ db = OK db' -> consistent db'.
Proof.
  intros [U1 U2 U3 U4 U5 U6 U7 U8 F1 F2 F3 F4 F5 F6 F7] H.
  apply update_conversations_ids in H as (l & -> & Hids).
  split; open_db; try assumption.
  - exact (eq_ind_r (fun ids => List.NoDup ids) U3 Hids).
  - intros y Hy. rewrite (existsb_key_congr c_id _ _ _ Hids). auto.
  - intros y Hy. rewrite (existsb_key_congr c_id _ _ _ Hids). auto.
Qed.

Lemma update_rows_from {A} touch new ok nc (l l' : list A) :
  update_rows touch new ok nc l = OK l' ->
  forall y, In y l' -> exists x, In x l /\ (y = x \/ y = new x).
Proof.
  revert l'. induction l as [|a l IH]; intros l'; cbn.
  - intros [= <-] y [].
  - destruct (touch a).
    + destruct (ok (new a)); [|discriminate].
      destruct nc; [discriminate|].
      destruct (update_rows touch new ok None l) as [r|e]; [|discriminate].
      intros [= <-] y [<-|Hy]; [eauto|].
      destruct (IH r eq_refl y Hy) as (x & Hx & H). eauto.
    + destruct (update_rows touch new ok nc l) as [r|e]; [|discriminate].
      intros [= <-] y [<-|Hy]; [eauto|].
      destruct (IH r eq_refl y Hy) as (x & Hx & H). eauto.
Qed.

Lemma update_profiles_ids s now a where_ db db' :
  update_profiles s now a where_ db = OK db' ->
  exists l, db' = with_profiles db l
            /\ map p_id l = map p_id (profiles db).
Proof.
  unfold update_profiles.
  destruct (update_rows _ _ _ _ (profiles db)) as [l|e] eqn:E; [|discriminate].
  intros [= <-]. exists l. split; [reflexivity|].
  eapply (update_rows_keeps p_id); [|exact E]. reflexivity.
Qed.

Lemma in_by_key {A} (key : A -> N) (l l' : list A) (y : A) :
  map key l' = map key l -> In y l' -> exists x, In x l /\ key x = key y.
Proof.
  intros E Hy. apply (in_map key) in Hy. rewrite E in Hy.
  apply in_map_iff in Hy as (x & Hx & Hin). eauto.
Qed.

Lemma update_profiles_consistent s now a where_ db db' :
  consistent db -> update_profiles s now a where_ db = OK db' -> consistent db'.
Proof.
  intros [U1 U2 U3 U4 U5 U6 U7 U8 F1 F2 F3 F4 F5 F6 F7] H.
  apply update_profiles_ids in H as (l & -> & Hids).
  split; open_db; try assumption.
  - exact (eq_ind_r (fun ids => List.NoDup ids) U2 Hids).
  - intros y Hy. destruct (in_by_key p_id _ _ y Hids Hy) as (x & Hx & <-). auto.
Qed.

Lemma update_messages_ids s a where_ db db' :
  update_messages s a where_ db = OK db' ->
  exists l, db' = with_messages db l
            /\ map m_id l = map m_id (messages db)
            /\ forall y, In y l ->
                 exists x, In x (messages db)
                           /\ m_conversation_id y = m_conversation_id x
                           /\ m_sender_id y = m_sender_id x.
Proof.
  unfold update_messages.
  destruct (update_rows _ _ _ _ (messages db)) as [l|e] eqn:E; [|discriminate].
  intros [= <-]. exists l. split; [reflexivity|]. split.
  - eapply (update_rows_keeps m_id); [|exact E]. reflexivity.
  - intros y Hy. destruct (update_rows_from _ _ _ _ _ _ E y Hy) as (x & Hx & [->| ->]);
      exists x; repeat split; assumption.
Qed.

Lemma update_messages_consistent s a where_ db db' :
  consistent db -> update_messages s a where_ db = OK db' -> consistent db'.
Proof.
  intros [U1 U2 U3 U4 U5 U6 U7 U8 F1 F2 F3 F4 F5 F6 F7] H.
  apply update_messages_ids in H as (l & -> & Hids & Hfrom).
  split; open_db; try assumption.
  - exact (eq_ind_r (fun ids => List.NoDup ids) U6 Hids).
  - intros y Hy. destruct (Hfrom y Hy) as (x & Hx & -> & _). auto.
  - intros y Hy. destruct (Hfrom y Hy) as (x & Hx & _ & ->). auto.
  - intros y Hy. rewrite (existsb_key_congr m_id _ _ _ Hids). auto.
Qed.

Lemma delete_conversation_members_consistent s where_ db db' :
  consistent db -> delete_conversation_members s where_ db = OK db' -> consistent db'.
Proof.
  intros [U1 U2 U3 U4 U5 U6 U7 U8 F1 F2 F3 F4 F5 F6 F7].
  unfold delete_conversation_members. intros [= <-].
  split; open_db; try assumption.
  - apply NoDup_map_filter. assumption.
  - apply NoDup_map_filter. assumption.
  - intros y Hy. apply filter_In in Hy as [Hy _]. auto.
  - intros y Hy. apply filter_In in Hy as [Hy _]. auto.
Qed.

Lemma delete_messages_consistent s where_ db db' :
  consistent db -> delete_messages s where_ db = OK db' -> consistent db'.
Proof.
  intros [U1 U2 U3 U4 U5 U6 U7 U8 F1 F2 F3 F4 F5 F6 F7].
  unfold delete_messages. cbv zeta. intros H. apply OK_inj in H. subst db'.
  split; open_db; try assumption.
  - apply NoDup_map_filter. assumption.
  - apply NoDup_map_filter. assumption.
  - apply NoDup_map_filter. assumption.
  - intros y Hy. apply filter_In in Hy as [Hy _]. auto.
  - intros y Hy. apply filter_In in Hy as [Hy _]. auto.
  - intros y Hy. apply filter_In in Hy as [Hy Hkeep].
    apply existsb_filter_keep; [|auto].
    intros m Hm Hid. apply negb_true_iff in Hkeep.
    pose proof (proj1 (existsb_false_iff _ _) Hkeep m Hm) as Hd. cbv beta in Hd.
    rewrite Hid, andb_true_r in Hd. rewrite Hd. reflexivity.
  - intros y Hy. apply filter_In in Hy as [Hy _]. auto.
Qed.

Lemma delete_auth_user_consistent u db db' :
  consistent db -> delete_auth_user u db = OK db' -> consistent db'.
Proof.
  intros [U1 U2 U3 U4 U5 U6 U7 U8 F1 F2 F3 F4 F5 F6 F7].
  unfold delete_auth_user. intros [= <-].
  assert (forall k, N.eqb k u = false ->
            existsb (fun x => N.eqb (au_id x) k) (auth_users db) = true ->
            existsb (fun x => N.eqb (au_id x) k)
              (List.filter (fun x => negb (N.eqb (au_id x) u)) (auth_users db))
            = true) as Hkeep.
  { intros k Hk. apply existsb_filter_keep. intros y _ Hy.
    apply N.eqb_eq in Hy. rewrite Hy, Hk. reflexivity. }
  split; open_db; try (apply NoDup_map_filter; assumption); try assumption.
  - intros y Hy. apply filter_In in Hy as [Hy Hne].
    apply Hkeep; [apply negb_true_iff; exact Hne|auto].
  - intros y Hy. apply filter_In in Hy as [Hy _]. auto.
  - intros y Hy. apply filter_In in Hy as [Hy Hne].
    apply Hkeep; [apply negb_true_iff; exact Hne|auto].
  - intros y Hy. apply filter_In in Hy as [Hy _]. auto.
  - intros y Hy. apply filter_In in Hy as [Hy Hne].
    apply Hkeep; [apply negb_true_iff; exact Hne|auto].
  - intros y Hy. apply filter_In in Hy as [Hy Hk].
    apply andb_true_iff in Hk as [_ Hk]. apply negb_true_iff in Hk.
    apply existsb_filter_keep; [|auto].
    intros m Hm Hid.
    pose proof (proj1 (existsb_false_iff _ _) Hk m Hm) as Hd. cbv beta in Hd.
    rewrite Hid, andb_true_r in Hd. rewrite Hd. reflexivity.
  - intros y Hy. apply filter_In in Hy as [Hy Hk].
    apply andb_true_iff in Hk as [Hk _].
    apply Hkeep; [apply negb_true_iff; exact Hk|auto].
Qed.

Lemma insert_auth_user_consistent now NEW db db' :
  consistent db -> insert_auth_user now NEW db = OK db' -> consistent db'.
Proof.
  intros [U1 U2 U3 U4 U5 U6 U7 U8 F1 F2 F3 F4 F5 F6 F7] H.
  apply insert_auth_user_inv in H as (Hu & Hp & name & _ & ->).
  split; open_db; try assumption.
  - apply NoDup_map_snoc; [assumption|]. apply eqb_false_fresh. exact Hu.
  - apply (NoDup_map_snoc p_id); [assumption|].
    apply (eqb_false_fresh p_id). exact Hp.
  - intros y Hy. apply in_app_iff in Hy as [Hy|[<-|[]]].
    + apply existsb_snoc_l. auto.
    + apply existsb_snoc_r. cbn. apply N.eqb_refl.
  - intros y Hy. apply existsb_snoc_l. auto.
  - intros y Hy. apply existsb_snoc_l. auto.
  - intros y Hy. apply existsb_snoc_l. auto.
Qed.

Lemma exec_cases (q : statement) (db : database) :
  (fst (exec q db) = db /\ exists e, q db = ERROR e)
  \/ q db = OK (fst (exec q db)).
Proof. unfold exec. destruct (q db); cbn; eauto. Qed.

Lemma run_keeps_consistent (a : action) (db : database) :
  consistent db -> consistent (fst (exec (run a) db)).
Proof.
  intros Hc. destruct (exec_cases (run a) db) as [[-> _]|H]; [exact Hc|].
  revert H. generalize (fst (exec (run a) db)). intros db' H.
  destruct a; cbn [run] in H.
  - eapply insert_auth_user_consistent; eassumption.
  - eapply delete_auth_user_consistent; eassumption.
  - eapply insert_profile_consistent; eassumption.
  - eapply update_profiles_consistent; eassumption.
  - eapply insert_conversation_consistent; eassumption.
  - eapply update_conversations_consistent; eassumption.
  - eapply insert_conversation_members_consistent; eassumption.
  - eapply delete_conversation_members_consistent; eassumption.
  - eapply insert_message_consistent; eassumption.
  - eapply update_messages_consistent; eassumption.
  - eapply delete_messages_consistent; eassumption.
  - eapply insert_read_receipt_consistent; eassumption.
Qed.

Lemma empty_database_consistent : consistent empty_database.
Proof. split; cbn; try apply List.NoDup_nil; intros x []. Qed.

Ltac sample_consistent :=
  split; cbn;
  try (repeat (apply List.NoDup_cons; [cbn; intuition discriminate|]);
       apply List.NoDup_nil);
  intros x Hx; cbn in Hx; intuition (subst; reflexivity).

Lemma lobby_db_consistent : consistent lobby_db.
Proof. sample_consistent. Qed.

Lemma read_db_consistent : consistent read_db.
Proof. sample_consistent. Qed.

Lemma sample_users_have_profiles :
  every_user_has_profile orphan_db /\ every_user_has_profile lobby_db
  /\ every_user_has_profile read_db.
Proof. repeat split; intros x [<-|[<-|[]]]; reflexivity. Qed.

(** X3. Whatever the auth subsystem and the sessions do, the primary keys,
    the two UNIQUE constraints and the seven references of the schema
    hold afterwards if they held before: inserts are checked against
    them, updates leave the keys alone, and the deletes take the
    referencing rows along (ON DELETE CASCADE). *)
Theorem actions_keep_keys_and_references (a : action) (db : database) :
  consistent db -> consistent (fst (exec (run a) db)).
Proof. apply run_keeps_consistent. Qed.

Lemma actions_keep_keys_and_references_witness :
  consistent (fst (exec (run (Delete_messages (authed alice) (Some (fun _ => true)))) read_db)).
Proof.
  apply actions_keep_keys_and_references. exact read_db_consistent.
Defined.

(** * One profile for each identity *)

Lemma every_user_has_profile_mono db db' :
  auth_users db' = auth_users db ->
  (forall u, profile_exists db u = true -> profile_exists db' u = true) ->
  every_user_has_profile db -> every_user_has_profile db'.
Proof.
  intros Hu Hp H x Hx. apply Hp. apply H. rewrite <- Hu. exact Hx.
Qed.

Lemma run_keeps_profiles (a : action) (db : database) :
  every_user_has_profile db -> every_user_has_profile (fst (exec (run a) db)).
Proof.
  intros Hc. destruct (exec_cases (run a) db) as [[-> _]|H]; [exact Hc|].
  revert H. generalize (fst (exec (run a) db)). intros db' H.
  destruct a; cbn [run] in H.
  - apply insert_auth_user_inv in H as (_ & _ & name & _ & ->).
    intros x Hx. open_db. apply in_app_iff in Hx as [Hx|[<-|[]]].
    + apply existsb_snoc_l. apply (Hc x Hx).
    + apply existsb_snoc_r. apply N.eqb_refl.
  - unfold delete_auth_user in H. injection H as <-.
    intros x Hx. open_db. apply filter_In in Hx as [Hx Hne].
    apply existsb_filter_keep; [|apply (Hc x Hx)].
    intros p _ Hp. apply N.eqb_eq in Hp. rewrite Hp. exact Hne.
  - unfold insert_profile in H.
    repeat match type of H with
           | context [if ?b then _ else _] => destruct b
           end; try discriminate.
    injection H as <-. intros y Hy. open_db. apply existsb_snoc_l. apply (Hc y Hy).
  - apply update_profiles_ids in H as (l & -> & Hids).
    intros y Hy. open_db. rewrite (existsb_key_congr p_id _ _ _ Hids).
    apply (Hc y Hy).
  - unfold insert_conversation in H.
    repeat match type of H with
           | context [if ?b then _ else _] => destruct b
           end; try discriminate.
    injection H as <-. exact Hc.
  - apply update_conversations_ids in H as (l & -> & _). exact Hc.
  - apply insert_conversation_members_inv in H as [H _].
    apply store_checked_members_inv in H as (-> & _). exact Hc.
  - unfold delete_conversation_members in H. injection H as <-. exact Hc.
  - unfold insert_message in H.
    repeat match type of H with
           | context [if ?b then _ else _] => destruct b
           end; try discriminate.
    injection H as <-. exact Hc.
  - apply update_messages_ids in H as (l & -> & _). exact Hc.
  - unfold delete_messages in H. cbv zeta in H. apply OK_inj in H. subst db'.
    exact Hc.
  - unfold insert_read_receipt in H.
    repeat match type of H with
           | context [if ?b then _ else _] => destruct b
           end; try discriminate.
    injection H as <-. exact Hc.
Qed.

(** X4. Every identity keeps a profile row, whatever happens: the signup
    trigger creates it with the identity, no session can delete a profile,
    and it goes only when the identity goes. *)
Theorem every_user_keeps_a_profile (a : action) (db : database) :
  every_user_has_profile db -> every_user_has_profile (fst (exec (run a) db)).
Proof. apply run_keeps_profiles. Qed.

Lemma every_user_keeps_a_profile_witness :
  every_user_has_profile (fst (exec (run (Remove_user bob)) lobby_db)).
Proof.
  apply every_user_keeps_a_profile. exact (proj1 (proj2 sample_users_have_profiles)).
Defined.

Lemma run_all_invariant (P : database -> Prop) :
  (forall a db, P db -> P (fst (exec (run a) db))) ->
  forall l db, P db -> P (run_all l db).
Proof.
  intros Hstep l. induction l as [|a l IH]; intros db H; cbn; [exact H|].
  apply IH. apply Hstep. exact H.
Qed.

Lemma count_unique_key {A} (key : A -> N) (k : N) (l : list A) :
  List.NoDup (map key l) ->
  existsb (fun x => N.eqb (key x) k) l = true ->
  length (List.filter (fun x => N.eqb (key x) k) l) = 1%nat.
Proof.
  induction l as [|a l IH]; cbn; [discriminate|].
  intros Hnd. inversion Hnd as [|? ? Ha Hl]; subst.
  destruct (N.eqb (key a) k) eqn:E; cbn.
  - intros _. apply N.eqb_eq in E. subst k.
    assert (List.filter (fun x => N.eqb (key x) (key a)) l = []) as ->;
      [|reflexivity].
    clear -Ha. induction l as [|b l IH]; [reflexivity|]. cbn.
    destruct (N.eqb (key b) (key a)) eqn:E.
    + exfalso. apply Ha. left. apply N.eqb_eq. exact E.
    + apply IH. intros H. apply Ha. right. exact H.
  - apply IH. exact Hl.
Qed.

(** X5. Starting from the empty database, after any sequence of signups,
    removals and statements every identity has exactly one profile row
    and every profile row belongs to an identity. *)
Theorem identity_and_profile_one_to_one (l : list action) :
  let db := run_all l empty_database in
  (forall x, In x (auth_users db) ->
     length (List.filter (fun p => N.eqb (p_id p) (au_id x)) (profiles db)) = 1%nat)
  /\ (forall p, In p (profiles db) ->
        length (List.filter (fun x => N.eqb (au_id x) (p_id p)) (auth_users db))
        = 1%nat).
Proof.
  intros db.
  assert (consistent db) as Hc
    by (apply (run_all_invariant consistent run_keeps_consistent);
        apply empty_database_consistent).
  assert (every_user_has_profile db) as Hp
    by (apply (run_all_invariant _ run_keeps_profiles); intros x []).
  split.
  - intros x Hx. apply count_unique_key; [apply Hc|apply Hp; exact Hx].
  - intros p Hin. apply count_unique_key; [apply Hc|].
    apply (profiles_id_fkey db Hc p Hin).
Qed.

(** X6. Where every identity has its profile, no INSERT into [profiles] by a
    session goes through: the row is refused by the policy, the primary
    key or the reference.  Profile rows come from the signup trigger
    only. *)
Theorem session_cannot_insert_profile (s : session) (x : profile) (db : database) :
  every_user_has_profile db ->
  exists e, exec (insert_profile s x) db = (db, Some e).
Proof.
  intros Hp. unfold exec, insert_profile.
  destruct (check_allows schema INSERT s db (Row_profile x)); cbn [negb];
    [|eexists; reflexivity].
  destruct (profile_exists db (p_id x)) eqn:Hx; [eexists; reflexivity|].
  destruct (user_exists db (p_id x)) eqn:Hu; cbn [negb]; [|eexists; reflexivity].
  exfalso. unfold user_exists in Hu. apply existsb_exists in Hu as (u & Hin & E).
  apply N.eqb_eq in E. specialize (Hp u Hin). rewrite E in Hp. congruence.
Qed.

Lemma identity_and_profile_one_to_one_witness :
  length (List.filter (fun p => N.eqb (p_id p) (au_id carol))
            (profiles (run_all [Signup 5 carol; Signup 6 nameless] empty_database)))
  = 1%nat.
Proof.
  apply (proj1 (identity_and_profile_one_to_one [Signup 5 carol; Signup 6 nameless])).
  left. reflexivity.
Defined.

Lemma session_cannot_insert_profile_witness :
  exists e,
    exec (insert_profile (authed alice) (sample_profile alice "Alice")) orphan_db
    = (orphan_db, Some e).
Proof.
  apply session_cannot_insert_profile.
  exact (proj1 sample_users_have_profiles).
Defined.

(** * Statements of any session *)

(** X7. A stored message names the session's user as its sender, and a stored
    read receipt names the session's user as the reader: a statement that
    gets through was issued by the signed-in user the row names, who at
    that moment was a member of the conversation concerned. *)
Theorem stored_rows_name_their_author (s : session) (db db' : database) :
  (forall x, insert_message s x db = OK db' ->
     s = authed (m_sender_id x)
     /\ membership db (m_conversation_id x) (m_sender_id x))
  /\ (forall x, insert_read_receipt s x db = OK db' ->
        s = authed (rr_user_id x)
        /\ exists m, In m (messages db) /\ m_id m = rr_message_id x
                     /\ membership db (m_conversation_id m) (rr_user_id x)).
Proof.
  split; intros x.
  - unfold insert_message.
    destruct (check_allows schema INSERT s db (Row_message x)) eqn:E;
      [|discriminate].
    intros _. pose proof (insert_message_needs_sender s db x E) as ->.
    split; [reflexivity|]. rewrite insert_message_rule in E.
    apply andb_true_iff in E as [_ E]. apply is_conversation_member_spec. exact E.
  - unfold insert_read_receipt.
    destruct (check_allows schema INSERT s db (Row_read_receipt x)) eqn:E;
      [|discriminate].
    intros _. pose proof (insert_receipt_needs_reader s db x E) as ->.
    split; [reflexivity|]. rewrite insert_receipt_rule in E.
    apply andb_true_iff in E as [_ E]. apply receipt_message_visible_spec. exact E.
Qed.

(** * What a WHERE clause adds *)

Lemma select_conversation_rule_any s db x :
  using_allows schema SELECT s db (Row_conversation x)
  = role_eqb (s_role s) authenticated && is_conversation_member db (c_id x) (s_uid s).
Proof. destruct s as [[] uid]; rls_both; reflexivity. Qed.

Lemma select_member_rule_any s db x :
  using_allows schema SELECT s db (Row_conversation_member x)
  = role_eqb (s_role s) authenticated
    && is_conversation_member db (cm_conversation_id x) (s_uid s).
Proof. destruct s as [[] uid]; rls_both; reflexivity. Qed.

Lemma delete_member_rule_any s db x :
  using_allows schema DELETE s db (Row_conversation_member x)
  = role_eqb (s_role s) authenticated && eq_uid (cm_user_id x) (s_uid s).
Proof. destruct s as [[] uid]; rls_both; reflexivity. Qed.

Lemma update_conversation_rule_any s db x :
  using_allows schema UPDATE s db (Row_conversation x)
  = role_eqb (s_role s) authenticated && is_conversation_member db (c_id x) (s_uid s).
Proof. destruct s as [[] uid]; rls_both; reflexivity. Qed.

Lemma update_conversation_check_any s db x :
  check_allows schema UPDATE s db (Row_conversation x)
  = role_eqb (s_role s) authenticated && is_conversation_member db (c_id x) (s_uid s).
Proof. destruct s as [[] uid]; rls_both; reflexivity. Qed.

Lemma update_profile_rule_any s db x :
  using_allows schema UPDATE s db (Row_profile x)
  = role_eqb (s_role s) authenticated && eq_uid (p_id x) (s_uid s).
Proof. destruct s as [[] uid]; rls_both; reflexivity. Qed.

Lemma update_profile_check_any s db x :
  check_allows schema UPDATE s db (Row_profile x)
  = role_eqb (s_role s) authenticated && eq_uid (p_id x) (s_uid s).
Proof. destruct s as [[] uid]; rls_both; reflexivity. Qed.

(** On [conversations], [profiles] and [conversation_members] a row that
    passes the policy of the UPDATE or DELETE passes the SELECT policy as
    well, so their statements need no separate test for the WHERE
    clause; on [messages] that is not so. *)
Lemma select_policy_follows (s : session) (db : database) :
  (forall x, using_allows schema UPDATE s db (Row_conversation x)
             = using_allows schema SELECT s db (Row_conversation x))
  /\ (forall x, using_allows schema UPDATE s db (Row_profile x) = true ->
                using_allows schema SELECT s db (Row_profile x) = true)
  /\ (forall x, In x (conversation_members db) ->
                using_allows schema DELETE s db (Row_conversation_member x) = true ->
                using_allows schema SELECT s db (Row_conversation_member x) = true).
Proof.
  split; [|split].
  - intros x. rewrite update_conversation_rule_any, select_conversation_rule_any.
    reflexivity.
  - intros x. destruct s as [[] uid]; rls_both; auto.
  - intros x Hin. rewrite delete_member_rule_any, select_member_rule_any.
    intros H. apply andb_true_iff in H as [-> H]. cbn [andb].
    destruct (s_uid s) as [u|]; [|discriminate H]. cbn [eq_uid] in H.
    apply N.eqb_eq in H. apply is_conversation_member_spec.
    exists x. split; [exact Hin|]. split; [reflexivity|exact H].
Qed.

(** * Updating a conversation *)

Lemma with_conversations_same db : with_conversations db (conversations db) = db.
Proof. destruct db; reflexivity. Qed.

Lemma with_profiles_same db : with_profiles db (profiles db) = db.
Proof. destruct db; reflexivity. Qed.

Lemma existsb_ext {A} (f g : A -> bool) (l : list A) :
  (forall x, f x = g x) -> existsb f l = existsb g l.
Proof. intros H. induction l as [|x l IH]; cbn; [|rewrite H, IH]; reflexivity. Qed.

Lemma update_conversations_result
    (s : session) (now : timestamptz) (a : conversation_set)
    (where_ : conversation -> bool) (db : database) :
  update_conversations s now a where_ db
  = match conversation_set_null a with
    | None =>
        OK (with_conversations db
              (map (fun x =>
                      if where_ x
                         && using_allows schema UPDATE s db (Row_conversation x)
                      then update_conversations_updated_at now
                             (apply_conversation_set a x)
                      else x)
                   (conversations db)))
    | Some column =>
        if existsb
             (fun x => where_ x && using_allows schema UPDATE s db (Row_conversation x))
             (conversations db)
        then ERROR (not_null_violation column)
        else OK db
    end.
Proof.
  assert (forall x,
            where_ x && using_allows schema UPDATE s db (Row_conversation x) = true ->
            check_allows schema UPDATE s db
              (Row_conversation
                 (update_conversations_updated_at now (apply_conversation_set a x)))
            = true) as Hok.
  { intros x Hx. apply andb_true_iff in Hx as [_ Hx].
    rewrite update_conversation_check_any. rewrite update_conversation_rule_any in Hx.
    exact Hx. }
  unfold update_conversations. destruct (conversation_set_null a) as [column|].
  - match goal with
    | |- context [existsb ?f ?l] => destruct (existsb f l) eqn:E
    end.
    + rewrite update_rows_null; [reflexivity|exact Hok|exact E].
    + rewrite update_rows_untouched; [|exact E].
      rewrite with_conversations_same. reflexivity.
  - rewrite update_rows_total; [reflexivity|exact Hok].
Qed.

(** X8. An UPDATE of [conversations] that sets columns other than the key
    rewrites the rows that match and of which the session's user is a
    member, and on each of them [updated_at] ends up as the time of the
    statement, whatever the SET clause said, NULL included; all other
    rows are left as they were.  It fails in one case only: when SET puts
    NULL into [type] or [created_at] and there is a row to rewrite, with
    the not-null error for the first such column. *)
Theorem update_conversations_stamps_now
    (s : session) (now : timestamptz) (a : conversation_set)
    (where_ : conversation -> bool) (db : database) :
  let touched x :=
    where_ x
    && (role_eqb (s_role s) authenticated
        && is_conversation_member db (c_id x) (s_uid s)) in
  update_conversations s now a where_ db
  = match conversation_set_null a with
    | None =>
        OK (with_conversations db
              (map (fun x =>
                      if touched x
                      then {| c_id := c_id x;
                              c_type := assign (c_type x) (set_type a);
                              c_name := assign_nullable (c_name x) (set_name a);
                              c_created_at :=
                                assign (c_created_at x) (set_created_at a);
                              c_updated_at := now |}
                      else x)
                   (conversations db)))
    | Some column =>
        if existsb touched (conversations db)
        then ERROR (not_null_violation column)
        else OK db
    end.
Proof.
  intros touched. rewrite update_conversations_result.
  destruct (conversation_set_null a).
  - rewrite (existsb_ext _ touched); [reflexivity|].
    intros x. rewrite update_conversation_rule_any. reflexivity.
  - do 2 f_equal. apply map_ext. intros x. rewrite update_conversation_rule_any.
    reflexivity.
Qed.

(** * Updating a profile *)

(** X9. An UPDATE of [profiles] that sets columns other than the key
    rewrites at most the profile of the session's own user: rows of other
    users stay as they were whatever the WHERE clause selects, and on the
    row it rewrites [updated_at] is the time of the statement, whatever
    the SET clause said.  It fails in one case only: when SET puts NULL
    into [display_name] or [created_at] and the user's own row is
    selected, with the not-null error for the first such column. *)
Theorem update_profiles_own_row_only
    (s : session) (now : timestamptz) (a : profile_set)
    (where_ : profile -> bool) (db : database) :
  let touched x :=
    where_ x
    && (role_eqb (s_role s) authenticated && eq_uid (p_id x) (s_uid s)) in
  update_profiles s now a where_ db
  = match profile_set_null a with
    | None =>
        OK (with_profiles db
              (map (fun x =>
                      if touched x
                      then {| p_id := p_id x;
                              p_display_name :=
                                assign (p_display_name x) (set_display_name a);
                              p_avatar_url :=
                                assign_nullable (p_avatar_url x) (set_avatar_url a);
                              p_created_at :=
                                assign (p_created_at x) (set_p_created_at a);
                              p_updated_at := now |}
                      else x)
                   (profiles db)))
    | Some column =>
        if existsb touched (profiles db)
        then ERROR (not_null_violation column)
        else OK db
    end.
Proof.
  intros touched.
  assert (forall x,
            where_ x && using_allows schema UPDATE s db (Row_profile x) = true ->
            check_allows schema UPDATE s db
              (Row_profile (update_profiles_updated_at now (apply_profile_set a x)))
            = true) as Hok.
  { intros x Hx. apply andb_true_iff in Hx as [_ Hx].
    rewrite update_profile_check_any. rewrite update_profile_rule_any in Hx.
    exact Hx. }
  assert (forall x,
            where_ x && using_allows schema UPDATE s db (Row_profile x) = touched x)
    as Htouch by (intros x; rewrite update_profile_rule_any; reflexivity).
  unfold update_profiles. destruct (profile_set_null a) as [column|].
  - rewrite <- (existsb_ext _ touched _ Htouch).
    match goal with
    | |- context [if existsb ?f ?l then _ else _] => destruct (existsb f l) eqn:E
    end.
    + rewrite update_rows_null; [reflexivity|exact Hok|exact E].
    + rewrite update_rows_untouched; [|exact E].
      rewrite with_profiles_same. reflexivity.
  - rewrite update_rows_total; [|exact Hok].
    do 2 f_equal. apply map_ext. intros x. rewrite Htouch. reflexivity.
Qed.

Lemma update_profiles_own_row_only_witness :
  update_profiles (authed alice) 9
    {| set_display_name := Some None; set_avatar_url := None;
       set_p_created_at := None; set_p_updated_at := None |}
    (fun _ => true) orphan_db
  = ERROR (not_null_violation "display_name").
Proof.
  exact (update_profiles_own_row_only (authed alice) 9
           {| set_display_name := Some None; set_avatar_url := None;
              set_p_created_at := None; set_p_updated_at := None |}
           (fun _ => true) orphan_db).
Defined.

Lemma update_conversations_stamps_now_witness :
  update_conversations (authed alice) 9
    {| set_type := None; set_name := None; set_created_at := Some None;
       set_updated_at := Some None |}
    (fun _ => true) lobby_db
  = ERROR (not_null_violation "created_at").
Proof.
  exact (update_conversations_stamps_now (authed alice) 9
           {| set_type := None; set_name := None; set_created_at := Some None;
              set_updated_at := Some None |}
           (fun _ => true) lobby_db).
Defined.

(** * Sending a message from the panel *)

Lemma member_row_targets db c U :
  consistent db -> membership db c U ->
  conversation_exists db c = true /\ user_exists db U = true.
Proof.
  intros Hc (m & Hin & <- & <-). split.
  - apply (conversation_members_conversation_id_fkey db Hc m Hin).
  - apply (conversation_members_user_id_fkey db Hc m Hin).
Qed.

(** X10. When a member sends a text that is not blank, [sendMessage] appends
    one message, with the trimmed text as content and the user as sender,
    and stamps the conversation: its [updated_at] becomes the time of the
    UPDATE on the server (the time the client sent is overwritten by the
    trigger).  Nothing else changes. *)
Theorem sendMessage_by_member
    (trim : string -> string) (U c : uuid) (text : string) (new_id : uuid)
    (inserted_at client_time updated_at : timestamptz) (db : database) :
  consistent db -> membership db c U ->
  trim text <> "" -> message_exists db new_id = false ->
  sendMessage trim (Some U) (Some c) text new_id inserted_at client_time updated_at db
  = {| auth_users := auth_users db; profiles := profiles db;
       conversations :=
         map (fun x => if N.eqb (c_id x) c
                       then update_conversations_updated_at updated_at x
                       else x)
             (conversations db);
       conversation_members := conversation_members db;
       messages := messages db ++
                   [{| m_id := new_id; m_conversation_id := c; m_sender_id := U;
                       m_content := trim text; m_created_at := inserted_at |}];
       read_receipts := read_receipts db |}.
Proof.
  intros Hc Hm Htext Hfresh.
  destruct (member_row_targets db c U Hc Hm) as [Hconv Huser].
  apply is_conversation_member_spec in Hm.
  unfold sendMessage.
  destruct (String.eqb_spec (trim text) "") as [E|_]; [contradiction|].
  unfold exec at 1. unfold insert_message.
  rewrite insert_message_rule. cbn [m_sender_id m_conversation_id m_id].
  rewrite N.eqb_refl, Hm, Hfresh, Hconv, Huser. cbn [negb andb].
  unfold exec. rewrite update_conversations_result.
  cbn [conversation_set_null assigns_null set_type set_created_at fst].
  unfold with_conversations, with_messages; cbn [auth_users profiles conversations
    conversation_members messages read_receipts]. f_equal.
  apply map_ext. intros x. rewrite update_conversation_rule.
  destruct (N.eqb (c_id x) c) eqn:E; [|reflexivity]. apply N.eqb_eq in E.
  change (is_conversation_member _ (c_id x) (Some U))
    with (is_conversation_member db (c_id x) (Some U)).
  replace (is_conversation_member db (c_id x) (Some U)) with true
    by (rewrite E; symmetry; exact Hm).
  reflexivity.
Qed.

Lemma sendMessage_by_member_witness :
  messages (sendMessage (fun t => t) (Some bob) (Some 7) "hi" 21 5 6 7 lobby_db)
  = [hello;
     {| m_id := 21; m_conversation_id := 7; m_sender_id := bob;
        m_content := "hi"; m_created_at := 5 |}]
  /\ map c_updated_at
         (conversations
            (sendMessage (fun t => t) (Some bob) (Some 7) "hi" 21 5 6 7 lobby_db))
     = [7].
Proof.
  pose proof lobby_db_consistent as Hc.
  assert (membership lobby_db 7 bob) as Hm.
  { exists (joins 11 bob). split; [right; left; reflexivity|]. split; reflexivity. }
  assert ((fun t : string => t) "hi" <> "") as Ht by discriminate.
  pose proof (sendMessage_by_member (fun t => t) bob 7 "hi" 21 5 6 7 lobby_db
                Hc Hm Ht eq_refl) as E.
  split.
  - exact (f_equal messages E).
  - exact (f_equal (fun d => map c_updated_at (conversations d)) E).
Defined.

(** X11. [sendMessage] leaves the database as it is when nobody is signed in,
    no conversation is open, the text is blank, or the user is not a
    member of the conversation: in the last case the insert is refused
    and the timestamp update is not attempted. *)
Theorem sendMessage_without_effect
    (trim : string -> string) (user conversationId : option uuid) (text : string)
    (new_id : uuid) (inserted_at client_time updated_at : timestamptz)
    (db : database) :
  user = None \/ conversationId = None \/ trim text = ""
  \/ (exists U c, user = Some U /\ conversationId = Some c /\ ~ membership db c U) ->
  sendMessage trim user conversationId text new_id inserted_at client_time updated_at db
  = db.
Proof.
  unfold sendMessage. intros [->|[->|[E|(U & c & -> & -> & Hno)]]].
  - destruct conversationId; reflexivity.
  - reflexivity.
  - destruct conversationId, user; try reflexivity. rewrite E. reflexivity.
  - destruct (String.eqb (trim text) ""); [reflexivity|].
    apply is_conversation_member_false in Hno.
    unfold exec at 1. unfold insert_message.
    rewrite insert_message_rule. cbn [m_sender_id m_conversation_id].
    rewrite Hno, andb_false_r. reflexivity.
Qed.

Lemma sendMessage_without_effect_witness :
  sendMessage (fun t => t) (Some alice) (Some 7) "hi" 21 5 6 7 orphan_db = orphan_db.
Proof.
  apply sendMessage_without_effect. right. right. right.
  exists alice, 7. split; [reflexivity|]. split; [reflexivity|].
  intros (m & [] & _).
Defined.

(** * Adding members *)

Lemma store_checked_members_refused s snapshot xs db0 :
  (exists x, In x xs
             /\ check_allows schema INSERT s snapshot (Row_conversation_member x) = false) ->
  exists e, store_checked_members s snapshot xs db0 = ERROR e.
Proof.
  revert db0. induction xs as [|y xs IH]; intros db0 (x & Hin & Hx); [destruct Hin|].
  cbn [store_checked_members].
  destruct (check_allows schema INSERT s snapshot (Row_conversation_member y)) eqn:Ey;
    cbn [negb]; [|eauto].
  destruct (store_conversation_member y db0) as [db1|e]; [|eauto].
  apply IH. exists x. split; [|exact Hx].
  destruct Hin as [->|Hin]; [congruence|exact Hin].
Qed.

Lemma store_conversation_member_ok x db :
  existsb (fun y => N.eqb (cm_id y) (cm_id x)) (conversation_members db) = false ->
  ~ membership db (cm_conversation_id x) (cm_user_id x) ->
  store_conversation_member x db
  = OK (with_conversation_members db (conversation_members db ++ [x])).
Proof.
  intros Hid Hno. unfold store_conversation_member. rewrite Hid.
  apply is_conversation_member_false in Hno. unfold is_conversation_member in Hno.
  cbn [eq_uid] in Hno. rewrite Hno. reflexivity.
Qed.

Lemma insert_conversation_member_ok s x db :
  check_allows schema INSERT s db (Row_conversation_member x) = true ->
  existsb (fun y => N.eqb (cm_id y) (cm_id x)) (conversation_members db) = false ->
  ~ membership db (cm_conversation_id x) (cm_user_id x) ->
  conversation_exists db (cm_conversation_id x) = true ->
  user_exists db (cm_user_id x) = true ->
  insert_conversation_member s x db
  = OK (with_conversation_members db (conversation_members db ++ [x])).
Proof.
  intros Hcheck Hid Hno Hc Hu.
  rewrite insert_conversation_member_unfold, Hcheck, Hid, Hc, Hu.
  apply is_conversation_member_false in Hno. unfold is_conversation_member in Hno.
  cbn [eq_uid] in Hno. rewrite Hno. reflexivity.
Qed.

(** X12. One INSERT cannot both join a conversation and invite into it.  When
    the user is not yet a member, a statement that carries a row for
    somebody else is refused as a whole, also when the user's own row
    comes first: the helper is STABLE and answers from the state the
    statement started in.  The same two rows sent as two statements, own
    row first, are both stored. *)
Theorem invite_needs_its_own_statement
    (db : database) (U W c id1 id2 : uuid) (t1 t2 : timestamptz) :
  let me := {| cm_id := id1; cm_conversation_id := c; cm_user_id := U;
               cm_joined_at := t1 |} in
  let other := {| cm_id := id2; cm_conversation_id := c; cm_user_id := W;
                  cm_joined_at := t2 |} in
  U <> W -> id1 <> id2 ->
  ~ membership db c U -> ~ membership db c W ->
  conversation_exists db c = true ->
  user_exists db U = true -> user_exists db W = true ->
  existsb (fun y => N.eqb (cm_id y) id1 || N.eqb (cm_id y) id2)
          (conversation_members db) = false ->
  exec (insert_conversation_members (authed U) [me; other]) db
  = (db, Some insufficient_privilege)
  /\ (forall xs, In other xs ->
        exists e, exec (insert_conversation_members (authed U) xs) db = (db, Some e))
  /\ run_all [Insert_conversation_members (authed U) [me];
              Insert_conversation_members (authed U) [other]] db
     = with_conversation_members db (conversation_members db ++ [me; other]).
Proof.
  intros me other HUW Hids HnoU HnoW Hconv HU HW Hfresh.
  assert (check_allows schema INSERT (authed U) db (Row_conversation_member other)
          = false) as Hother.
  { rewrite insert_member_rule.
    change (cm_user_id other) with W. change (cm_conversation_id other) with c.
    apply orb_false_iff. split; [apply N.eqb_neq; congruence|].
    apply is_conversation_member_false. exact HnoU. }
  assert (existsb (fun y => N.eqb (cm_id y) id1) (conversation_members db) = false
          /\ existsb (fun y => N.eqb (cm_id y) id2) (conversation_members db) = false)
    as [Hf1 Hf2].
  { rewrite existsb_false_iff in Hfresh.
    split; apply existsb_false_iff; intros y Hy; specialize (Hfresh y Hy);
      apply orb_false_iff in Hfresh; tauto. }
  assert (store_conversation_member me db
          = OK (with_conversation_members db (conversation_members db ++ [me])))
    as Hme by (apply store_conversation_member_ok; assumption).
  assert (check_allows schema INSERT (authed U) db (Row_conversation_member me) = true)
    as Hself.
  { rewrite insert_member_rule. change (cm_user_id me) with U.
    rewrite N.eqb_refl. reflexivity. }
  split; [|split].
  - unfold exec, insert_conversation_members. cbn [store_checked_members].
    rewrite Hself. cbn [negb]. rewrite Hme. cbv beta iota.
    rewrite Hother. reflexivity.
  - intros xs Hin. unfold exec, insert_conversation_members.
    destruct (store_checked_members_refused (authed U) db xs db) as [e ->];
      [exists other; split; assumption|].
    exists e. reflexivity.
  - cbn [run_all run]. unfold exec at 2.
    change (insert_conversation_members (authed U) [me])
      with (insert_conversation_member (authed U) me).
    rewrite (insert_conversation_member_ok (authed U) me db Hself Hf1 HnoU Hconv HU).
    cbn [fst].
    set (db1 := with_conversation_members db (conversation_members db ++ [me])).
    unfold exec.
    change (insert_conversation_members (authed U) [other])
      with (insert_conversation_member (authed U) other).
    rewrite (insert_conversation_member_ok (authed U) other db1).
    + cbn [fst]. unfold db1, with_conversation_members.
      cbn [auth_users profiles conversations conversation_members messages
           read_receipts]. rewrite <- app_assoc. reflexivity.
    + rewrite insert_member_rule. change (cm_conversation_id other) with c.
      assert (is_conversation_member db1 c (Some U) = true) as ->;
        [|apply orb_true_r].
      apply (member_after_append db1 me (conversation_members db)). reflexivity.
    + change (existsb (fun y => N.eqb (cm_id y) id2)
                      (conversation_members db ++ [me]) = false).
      rewrite existsb_app, Hf2. cbn. apply N.eqb_neq in Hids. rewrite Hids.
      reflexivity.
    + intros (m & Hin & Hc & Hu). unfold db1 in Hin.
      cbn [conversation_members with_conversation_members] in Hin.
      apply in_app_iff in Hin as [Hin|[<-|[]]].
      * apply HnoW. exists m. tauto.
      * apply HUW. exact Hu.
    + exact Hconv.
    + exact HW.
Qed.

(** * Creating a conversation in two steps *)

Lemma no_members_before_creation db c :
  consistent db -> conversation_exists db c = false -> orphan db c.
Proof.
  intros Hc Hno m Hm E.
  pose proof (conversation_members_conversation_id_fkey db Hc m Hm) as H.
  rewrite E in H. congruence.
Qed.

Lemma filter_ext_in {A} (f g : A -> bool) (l : list A) :
  (forall x, In x l -> f x = g x) -> List.filter f l = List.filter g l.
Proof.
  intros H. induction l as [|a l IH]; [reflexivity|]. cbn.
  rewrite (H a (or_introl eq_refl)), IH; [reflexivity|].
  intros x Hx. apply H. right. exact Hx.
Qed.

(** X13. A conversation is created by one INSERT and becomes the creator's by
    a second one.  After the first the row is stored but the creator's
    list of conversations is what it was; after the creator's own
    membership row is stored the new conversation is at the end of that
    list. *)
Theorem create_then_join
    (db : database) (U : uuid) (x : conversation) (id : uuid) (t : timestamptz) :
  let me := {| cm_id := id; cm_conversation_id := c_id x; cm_user_id := U;
               cm_joined_at := t |} in
  let created := fst (exec (insert_conversation (authed U) x) db) in
  let joined := fst (exec (insert_conversation_member (authed U) me) created) in
  consistent db -> user_exists db U = true ->
  conversation_exists db (c_id x) = false ->
  existsb (fun y => N.eqb (cm_id y) id) (conversation_members db) = false ->
  conversations created = (conversations db ++ [x])%list
  /\ select_conversations (authed U) created = select_conversations (authed U) db
  /\ select_conversations (authed U) joined
     = (select_conversations (authed U) db ++ [x])%list.
Proof.
  intros me created joined Hc HU Hnew Hfresh.
  pose proof (no_members_before_creation db (c_id x) Hc Hnew) as Horphan.
  assert (created = with_conversations db (conversations db ++ [x])) as Ecreated.
  { unfold created, exec, insert_conversation.
    rewrite insert_conversation_rule, Hnew. reflexivity. }
  assert (joined = with_conversation_members created (conversation_members db ++ [me]))
    as Ejoined.
  { unfold joined, exec.
    rewrite (insert_conversation_member_ok (authed U) me created).
    - rewrite Ecreated. reflexivity.
    - rewrite insert_member_rule. change (cm_user_id me) with U.
      rewrite N.eqb_refl. reflexivity.
    - rewrite Ecreated. exact Hfresh.
    - rewrite Ecreated. intros (m & Hin & E & _). exact (Horphan m Hin E).
    - rewrite Ecreated. unfold conversation_exists.
      cbn [conversations with_conversations]. apply existsb_snoc_r. apply N.eqb_refl.
    - rewrite Ecreated. exact HU. }
  split; [rewrite Ecreated; reflexivity|]. split.
  - rewrite Ecreated. unfold select_conversations.
    cbn [conversations with_conversations]. rewrite List.filter_app. cbn [List.filter].
    rewrite !select_conversation_rule.
    change (is_conversation_member (with_conversations db _) (c_id x) (Some U))
      with (is_conversation_member db (c_id x) (Some U)).
    rewrite (orphan_not_member db (c_id x) (Some U) Horphan), app_nil_r.
    apply filter_ext_in. intros y _. rewrite !select_conversation_rule. reflexivity.
  - rewrite Ejoined, Ecreated. unfold select_conversations.
    cbn [conversations with_conversations with_conversation_members].
    rewrite List.filter_app. cbn [List.filter]. rewrite !select_conversation_rule.
    match goal with
    | |- context [is_conversation_member ?d (c_id x) (Some U)] =>
        assert (is_conversation_member d (c_id x) (Some U) = true) as ->
          by (apply (member_after_append d me (conversation_members db)); reflexivity)
    end.
    f_equal. apply filter_ext_in. intros y Hy. rewrite !select_conversation_rule.
    unfold is_conversation_member.
    cbn [conversation_members with_conversation_members with_conversations].
    rewrite existsb_app. cbn [existsb]. change (cm_conversation_id me) with (c_id x).
    assert (N.eqb (c_id x) (c_id y) = false) as ->.
    { apply N.eqb_neq. intros E. rewrite E in Hnew.
      rewrite (conversation_exists_In db y Hy) in Hnew. discriminate Hnew. }
    rewrite !orb_false_r. reflexivity.
Qed.

(** * Leaving and deleting *)

Lemma existsb_filter_same {A} (f p : A -> bool) (l : list A) :
  (forall y, In y l -> f y = true -> p y = true) ->
  existsb f (List.filter p l) = existsb f l.
Proof.
  intros H. destruct (existsb f l) eqn:E.
  - apply existsb_filter_keep; assumption.
  - apply existsb_false_iff. intros y Hy. apply filter_In in Hy as [Hy _].
    exact (proj1 (existsb_false_iff f l) E y Hy).
Qed.

(** X14. A DELETE on [conversation_members] touches the memberships of the
    session's user only: for every other user the helper answers as
    before, and so their lists of conversations and of messages are what
    they were. *)
Theorem leaving_changes_nothing_for_others
    (s : session) (where_ : conversation_member -> bool) (db : database) (V : uuid) :
  s_uid s <> Some V ->
  let db' := fst (exec (delete_conversation_members s where_) db) in
  (forall c, is_conversation_member db' c (Some V) = is_conversation_member db c (Some V))
  /\ select_conversations (authed V) db' = select_conversations (authed V) db
  /\ select_messages (authed V) db' = select_messages (authed V) db.
Proof.
  intros Hother db'.
  assert (forall c, is_conversation_member db' c (Some V)
                    = is_conversation_member db c (Some V)) as Hsame.
  { intros c. unfold db'. rewrite delete_conversation_members_exec. cbn [fst].
    unfold is_conversation_member.
    cbn [conversation_members with_conversation_members].
    apply existsb_filter_same. intros y _ Hy.
    apply andb_true_iff in Hy as [_ Hy]. cbn [eq_uid] in Hy. apply N.eqb_eq in Hy.
    rewrite delete_member_rule_any. apply negb_true_iff.
    rewrite !andb_false_iff. right. right.
    destruct (s_uid s) as [u|]; [|reflexivity]. cbn [eq_uid].
    apply N.eqb_neq. intros E. apply Hother. congruence. }
  split; [exact Hsame|].
  assert (conversations db' = conversations db /\ messages db' = messages db)
    as [Ec Em].
  { unfold db'. rewrite delete_conversation_members_exec. split; reflexivity. }
  split.
  - unfold select_conversations. rewrite Ec. apply filter_ext_in. intros y _.
    rewrite !select_conversation_rule. apply Hsame.
  - unfold select_messages. rewrite Em. apply filter_ext_in. intros y _.
    rewrite !select_message_rule. apply Hsame.
Qed.

Lemma exists_unique_id {A} (key : A -> N) (l : list A) (m m' : A) :
  List.NoDup (map key l) -> In m l -> In m' l -> key m = key m' -> m = m'.
Proof.
  induction l as [|a l IH]; [intros _ []|].
  cbn. intros Hnd. inversion Hnd as [|? ? Ha Hl]; subst.
  intros [->|Hm] [->|Hm'] E; auto.
  - exfalso. apply Ha. rewrite E. apply in_map. exact Hm'.
  - exfalso. apply Ha. rewrite <- E. apply in_map. exact Hm.
Qed.

(** X15. When messages are deleted their read receipts go with them and no
    others do: the receipts left are exactly the old ones whose message
    is still there. *)
Theorem delete_messages_takes_their_receipts
    (s : session) (where_ : option (message -> bool)) (db : database)
    (r : read_receipt) :
  consistent db ->
  let db' := fst (exec (delete_messages s where_) db) in
  In r (read_receipts db')
  <-> In r (read_receipts db) /\ message_exists db' (rr_message_id r) = true.
Proof.
  intros Hc db'. unfold db', exec, delete_messages, message_exists.
  cbn [fst read_receipts messages]. rewrite filter_In, negb_true_iff.
  split.
  - intros [Hin Hkeep]. split; [exact Hin|].
    apply existsb_filter_keep;
      [|apply (read_receipts_message_id_fkey db Hc r Hin)].
    intros m Hm Hid.
    pose proof (proj1 (existsb_false_iff _ _) Hkeep m Hm) as Hd. cbv beta in Hd.
    rewrite Hid, andb_true_r in Hd. rewrite Hd. reflexivity.
  - intros [Hin Hex]. split; [exact Hin|].
    apply existsb_exists in Hex as (m & Hm & Hid).
    apply filter_In in Hm as [Hm Hstay]. apply negb_true_iff in Hstay.
    apply N.eqb_eq in Hid.
    apply existsb_false_iff. intros m' Hm'.
    destruct (N.eqb (m_id m') (rr_message_id r)) eqn:E;
      [|apply andb_false_r].
    apply N.eqb_eq in E.
    assert (m' = m) as ->
      by (apply (exists_unique_id m_id (messages db));
          [apply Hc|assumption|assumption|congruence]).
    rewrite Hstay. reflexivity.
Qed.

(** * Errors a session can meet *)

(** X16. A second membership row for the same (conversation, user) pair is
    never stored: the INSERT fails whoever issues it and the table stays
    as it was, and for a row that passes the row check (a user joining
    again, or a member inviting somebody who is in already) the error is
    the uniqueness violation. *)
Theorem duplicate_membership_rejected
    (s : session) (x : conversation_member) (db : database) :
  membership db (cm_conversation_id x) (cm_user_id x) ->
  exists e,
    exec (insert_conversation_member s x) db = (db, Some e)
    /\ (check_allows schema INSERT s db (Row_conversation_member x) = true ->
        is_unique_violation e = true).
Proof.
  intros Hm. apply is_conversation_member_spec in Hm.
  unfold is_conversation_member in Hm. cbn [eq_uid] in Hm.
  unfold exec. rewrite insert_conversation_member_unfold.
  destruct (check_allows schema INSERT s db (Row_conversation_member x)).
  - unfold store_conversation_member. rewrite Hm.
    destruct (existsb (fun y => N.eqb (cm_id y) (cm_id x)) (conversation_members db));
      eexists; (split; [reflexivity|]); reflexivity.
  - eexists. split; [reflexivity|]. discriminate.
Qed.

Lemma duplicate_membership_rejected_witness :
  exists e,
    exec (insert_conversation_member (authed bob) (joins 12 bob)) lobby_db
    = (lobby_db, Some e)
    /\ (check_allows schema INSERT (authed bob) lobby_db
          (Row_conversation_member (joins 12 bob)) = true ->
        is_unique_violation e = true).
Proof.
  apply duplicate_membership_rejected.
  exists (joins 11 bob). split; [right; left; reflexivity|]. split; reflexivity.
Defined.

(** X17. In a database that keeps its references, an INSERT into [messages]
    or [read_receipts] never ends in a foreign-key error: a row that
    passes the row check names as sender or reader a member, whose
    membership row already references an existing conversation and user,
    and a receipt passes only for a stored message.  A missing
    conversation or message shows as the row-security error. *)
Theorem no_foreign_key_error_for_messages_and_receipts
    (s : session) (db : database) (constraint : string) :
  consistent db ->
  (forall x, insert_message s x db <> ERROR (foreign_key_violation constraint))
  /\ (forall x, insert_read_receipt s x db <> ERROR (foreign_key_violation constraint)).
Proof.
  intros Hc. split; intros x.
  - unfold insert_message.
    destruct (check_allows schema INSERT s db (Row_message x)) eqn:E;
      [|discriminate]. cbn [negb].
    pose proof (insert_message_needs_sender s db x E) as ->.
    rewrite insert_message_rule in E. apply andb_true_iff in E as [_ E].
    apply is_conversation_member_spec in E.
    destruct (member_row_targets db _ _ Hc E) as [-> ->].
    destruct (message_exists db (m_id x)); discriminate.
  - unfold insert_read_receipt.
    destruct (check_allows schema INSERT s db (Row_read_receipt x)) eqn:E;
      [|discriminate]. cbn [negb].
    pose proof (insert_receipt_needs_reader s db x E) as ->.
    rewrite insert_receipt_rule in E. apply andb_true_iff in E as [_ E].
    rewrite (receipt_visible_message_exists db _ x E).
    apply receipt_message_visible_spec in E as (m & _ & _ & E).
    destruct (member_row_targets db _ _ Hc E) as [_ ->].
    repeat match goal with
           | |- context [if existsb ?f ?l then _ else _] => destruct (existsb f l)
           end; discriminate.
Qed.

Lemma no_foreign_key_error_for_messages_and_receipts_witness :
  insert_message (authed alice)
    {| m_id := 22; m_conversation_id := 99; m_sender_id := alice;
       m_content := "lost"; m_created_at := 6 |} lobby_db
  <> ERROR (foreign_key_violation "messages_conversation_id_fkey").
Proof.
  exact (proj1 (no_foreign_key_error_for_messages_and_receipts
                  (authed alice) lobby_db "messages_conversation_id_fkey"
                  lobby_db_consistent) _).
Defined.

(** * The sidebar *)

Lemma member_has_own_row db c U :
  is_conversation_member db c (Some U) = true ->
  In c (fetchConversations.convoIds U db).
Proof.
  intros H. pose proof H as Hrow.
  apply is_conversation_member_spec in Hrow as (m & Hin & Hc & Hu).
  unfold fetchConversations.convoIds, fetchConversations.memberRows.
  apply in_map_iff. exists m. split; [exact Hc|].
  apply filter_In. split; [|apply N.eqb_eq; exact Hu].
  unfold select_conversation_members. apply filter_In. split; [exact Hin|].
  rewrite select_member_rule, Hc. exact H.
Qed.

Lemma filter_all {A} (p : A -> bool) (l : list A) :
  (forall x, In x l -> p x = true) -> List.filter p l = l.
Proof.
  intros H. induction l as [|a l IH]; [reflexivity|]. cbn.
  rewrite (H a (or_introl eq_refl)), IH; [reflexivity|].
  intros x Hx. apply H. right. exact Hx.
Qed.

Lemma filter_none {A} (p : A -> bool) (l : list A) :
  (forall x, In x l -> p x = false) -> List.filter p l = [].
Proof.
  intros H. induction l as [|a l IH]; [reflexivity|]. cbn.
  rewrite (H a (or_introl eq_refl)). apply IH.
  intros x Hx. apply H. right. exact Hx.
Qed.

(** X18. The conversations [fetchConversations] asks for are all the
    conversations row security lets the user see, in table order: going
    through the user's own membership rows first neither loses nor hides
    any, and with no membership row the list is empty. *)
Theorem fetchConversations_lists_all_visible (U : uuid) (db : database) :
  fetchConversations.convos U db = select_conversations (authed U) db.
Proof.
  unfold fetchConversations.convos.
  destruct (fetchConversations.memberRows U db) as [|m0 rest] eqn:E.
  - symmetry. apply filter_none. intros c _.
    rewrite select_conversation_rule.
    destruct (is_conversation_member db (c_id c) (Some U)) eqn:Hm; [|reflexivity].
    apply member_has_own_row in Hm. unfold fetchConversations.convoIds in Hm.
    rewrite E in Hm. destruct Hm.
  - apply filter_all. intros c Hc.
    apply filter_In in Hc as [_ Hc]. rewrite select_conversation_rule in Hc.
    apply member_has_own_row in Hc.
    apply existsb_exists. exists (c_id c). split; [exact Hc|apply N.eqb_refl].
Qed.

(** X19. In a database that keeps its references and has a profile for every
    identity, the member list the sidebar builds for a conversation the
    user belongs to names exactly the users with a membership row of that
    conversation; for a conversation the user does not belong to it is
    empty. *)
Theorem fetchConversations_members_are_the_members
    (U : uuid) (db : database) (c : conversation) :
  consistent db -> every_user_has_profile db ->
  (membership db (c_id c) U ->
   forall w, In w (map md_user_id (fetchConversations.members U db c))
             <-> membership db (c_id c) w)
  /\ (~ membership db (c_id c) U -> fetchConversations.members U db c = []).
Proof.
  intros Hc Hp.
  assert (forall w, In w (fetchConversations.memberIds U db c)
                    <-> membership db (c_id c) U /\ membership db (c_id c) w) as Hids.
  { intros w. unfold fetchConversations.memberIds, select_conversation_members.
    rewrite in_map_iff. split.
    - intros (m & Hw & Hin). apply filter_In in Hin as [Hin Hconv].
      apply filter_In in Hin as [Hin Hvis]. apply N.eqb_eq in Hconv.
      rewrite select_member_rule, Hconv in Hvis.
      apply is_conversation_member_spec in Hvis. split; [exact Hvis|].
      exists m. tauto.
    - intros [HU (m & Hin & Hconv & Hw)]. exists m. split; [exact Hw|].
      apply filter_In. split; [|apply N.eqb_eq; exact Hconv].
      apply filter_In. split; [exact Hin|].
      rewrite select_member_rule, Hconv. apply is_conversation_member_spec. exact HU. }
  split.
  - intros HU w. unfold fetchConversations.members.
    rewrite map_map. cbn [md_user_id]. rewrite in_map_iff. split.
    + intros (p & Hw & Hin). apply filter_In in Hin as [_ Hin].
      apply existsb_exists in Hin as (i & Hi & E). apply N.eqb_eq in E.
      apply Hids in Hi as [_ Hi]. cbn in Hw. replace w with i by congruence.
      exact Hi.
    + intros Hw.
      destruct (member_row_targets db (c_id c) w Hc Hw) as [_ Hexists].
      unfold user_exists in Hexists.
      apply existsb_exists in Hexists as (u & Hu & E). apply N.eqb_eq in E.
      pose proof (Hp u Hu) as Hprof. unfold profile_exists in Hprof.
      apply existsb_exists in Hprof as (p & Hin & Ep). apply N.eqb_eq in Ep.
      exists p. split; [congruence|].
      apply filter_In. split.
      * unfold select_profiles. apply filter_In. split; [exact Hin|].
        apply select_profile_rule.
      * apply existsb_exists. exists w. split; [apply Hids; tauto|].
        apply N.eqb_eq. congruence.
  - intros HU. unfold fetchConversations.members.
    rewrite (filter_none _ (select_profiles (authed U) db)); [reflexivity|].
    intros p _. apply existsb_false_iff. intros i Hi. apply Hids in Hi. tauto.
Qed.

(** * Naming a conversation *)

Lemma js_or_not_empty a d : d <> "" -> js_or a d <> "".
Proof.
  intros Hd. unfold js_or. destruct a as [s|]; [|exact Hd].
  destruct (String.eqb_spec s ""); assumption.
Qed.

(** X20. [getConversationName] never gives the empty string: a group without
    a name is "Group Chat", a direct conversation without another member,
    or whose other member has an empty display name, is "Unknown".  In a
    direct conversation of the user and one other member the name is the
    other's display name, in whichever order the two are listed. *)
Theorem getConversationName_shown
    (U : uuid) (user_id : option uuid) (convo : ConversationWithDetails) :
  getConversationName user_id convo <> ""
  /\ (forall me other,
        cwd_type convo = dm ->
        md_user_id me = U -> md_user_id other <> U ->
        cwd_members convo = [me; other] \/ cwd_members convo = [other; me] ->
        getConversationName (Some U) convo
        = js_or (Some (md_display_name other)) "Unknown").
Proof.
  split.
  - unfold getConversationName.
    destruct (cwd_type convo); apply js_or_not_empty; discriminate.
  - intros me other Hdm Hme Hother Hmembers. unfold getConversationName.
    rewrite Hdm. apply N.eqb_neq in Hother. apply N.eqb_eq in Hme.
    destruct Hmembers as [-> | ->]; cbn [List.find eq_uid];
      rewrite ?Hme, ?Hother; cbn [negb]; rewrite ?Hother; reflexivity.
Qed.

(** * The theorems on the sample data *)

Lemma stored_rows_name_their_author_witness : membership lobby_db 7 bob.
Proof.
  exact (proj2 (proj1 (stored_rows_name_their_author (authed bob) lobby_db
                         (with_messages lobby_db [hello; hi]))
                      hi eq_refl)).
Defined.

Lemma invite_needs_its_own_statement_witness :
  exec (insert_conversation_members (authed alice) [joins 10 alice; joins 11 bob])
       orphan_db
  = (orphan_db, Some insufficient_privilege)
  /\ run_all [Insert_conversation_members (authed alice) [joins 10 alice];
              Insert_conversation_members (authed alice) [joins 11 bob]] orphan_db
     = with_conversation_members orphan_db [joins 10 alice; joins 11 bob].
Proof.
  assert (alice <> bob) as Hab by discriminate.
  assert ((10 : uuid) <> 11) as Hids by discriminate.
  assert (forall u, ~ membership orphan_db 7 u) as Hno by (intros u (m & [] & _)).
  destruct (invite_needs_its_own_statement orphan_db alice bob 7 10 11 1 1
              Hab Hids (Hno alice) (Hno bob) eq_refl eq_refl eq_refl eq_refl)
    as (Hone & _ & Htwo).
  split; [exact Hone|exact Htwo].
Defined.

Lemma create_then_join_witness :
  select_conversations (authed alice)
    (fst (exec (insert_conversation (authed alice) side_room) lobby_db))
  = [lobby]
  /\ select_conversations (authed alice)
       (fst (exec (insert_conversation_member (authed alice)
                     {| cm_id := 12; cm_conversation_id := 8; cm_user_id := alice;
                        cm_joined_at := 4 |})
                  (fst (exec (insert_conversation (authed alice) side_room) lobby_db))))
     = [lobby; side_room].
Proof.
  exact (proj2 (create_then_join lobby_db alice side_room 12 4
                  lobby_db_consistent eq_refl eq_refl eq_refl)).
Defined.

Lemma leaving_changes_nothing_for_others_witness :
  select_messages (authed bob)
    (fst (exec (delete_conversation_members (authed alice) (fun _ => true)) lobby_db))
  = select_messages (authed bob) lobby_db.
Proof.
  apply (leaving_changes_nothing_for_others (authed alice) (fun _ => true)
           lobby_db bob).
  discriminate.
Defined.

Lemma delete_messages_takes_their_receipts_witness :
  ~ In seen_by_bob
       (read_receipts (fst (exec (delete_messages (authed alice) (Some (fun _ => true)))
                                 read_db))).
Proof.
  intros H.
  pose proof (delete_messages_takes_their_receipts (authed alice) (Some (fun _ => true))
                read_db seen_by_bob read_db_consistent) as T.
  cbv zeta in T. destruct (proj1 T H) as [_ Hgone].
  vm_compute in Hgone. discriminate Hgone.
Defined.

Lemma fetchConversations_members_are_the_members_witness :
  In bob (map md_user_id (fetchConversations.members alice lobby_db lobby)).
Proof.
  apply (proj1 (fetchConversations_members_are_the_members alice lobby_db lobby
                  lobby_db_consistent (proj1 (proj2 sample_users_have_profiles)))).
  - exists (joins 10 alice). split; [left; reflexivity|]. split; reflexivity.
  - exists (joins 11 bob). split; [right; left; reflexivity|]. split; reflexivity.
Defined.

Lemma getConversationName_shown_witness :
  getConversationName (Some alice) alice_and_bob = "Bob".
Proof.
  apply (proj2 (getConversationName_shown alice (Some alice) alice_and_bob)
           {| md_user_id := alice; md_display_name := "Alice" |}
           {| md_user_id := bob; md_display_name := "Bob" |});
    try reflexivity; try discriminate.
  right. reflexivity.
Defined.

(** * The chat page *)

(** X21. Something is always on screen.  On a wide screen both panes show; on
    a mobile screen exactly one does: the conversation list while no
    conversation is selected (null or the empty string), the messages
    once one is. *)
Theorem chat_panes (isMobile : bool) (activeConversationId : option string) :
  showSidebar isMobile activeConversationId
  || showMessages isMobile activeConversationId = true
  /\ (isMobile = false ->
      showSidebar isMobile activeConversationId = true
      /\ showMessages isMobile activeConversationId = true)
  /\ (isMobile = true ->
      showSidebar isMobile activeConversationId
      = negb (showMessages isMobile activeConversationId)
      /\ showMessages isMobile activeConversationId = truthy activeConversationId).
Proof.
  unfold showSidebar, showMessages.
  destruct isMobile, (truthy activeConversationId); cbn; repeat split;
    intros; congruence.
Qed.

Lemma chat_panes_witness :
  showSidebar true (Some "") = true /\ showMessages true (Some "") = false.
Proof.
  destruct (proj2 (proj2 (chat_panes true (Some ""))) eq_refl) as [H1 H2].
  split; [rewrite H1, H2; reflexivity|rewrite H2; reflexivity].
Defined.
